(** * ETD-Filter: the transit extraction, filtering and ranking pipeline

    A shallow embedding of [get-transits.py].  Python values are modelled
    as the program has them: [str] as [string] (UTF-8 bytes), [int] as [Z],
    [float] as the IEEE-754 values of [SpecFloat], the transit dictionaries
    as records whose optional keys are [option] fields, and the list of
    transit dictionaries as a list of references into a store.  An uncaught
    exception ends the run; it is the [Raise] case of [result]. *)

From Stdlib Require Import ZArith String Ascii List Bool Lia.
From Stdlib Require Import SpecFloat DecimalString DecimalZ.
From Stdlib Require Import Sorting.Permutation Sorting.Sorted.
From stdpp Require Import gmap strings list.

Import ListNotations.
Local Open Scope string_scope.
Local Open Scope Z_scope.

#[local] Arguments String.append : simpl nomatch.

(** ** Exceptions *)

Inductive exn : Type :=
| KeyError
| IndexError
| ValueError
| TypeError
| OverflowError
| AttributeError
| URLError
| SystemError.    (* a reference to no object *)

Inductive result (A : Type) : Type :=
| Ok (a : A)
| Raise (e : exn).

Arguments Ok {A} a.
Arguments Raise {A} e.

Definition bind {A B : Type} (m : result A) (k : A -> result B) : result B :=
  match m with
  | Ok a => k a
  | Raise e => Raise e
  end.

Notation "'let*' x ':=' m 'in' k" := (bind m (fun x => k))
  (at level 10, x name, m at level 100, k at level 200).

(** [d[key]] on a dictionary whose key may be absent. *)
Definition getitem {A : Type} (o : option A) : result A :=
  match o with
  | Some a => Ok a
  | None => Raise KeyError
  end.

(** [l[i]] on a list. *)
Definition index {A : Type} (l : list A) (i : nat) : result A :=
  match nth_error l i with
  | Some a => Ok a
  | None => Raise IndexError
  end.

(** ** Text *)

Definition is_digit (c : ascii) : bool :=
  ((48 <=? N_of_ascii c) && (N_of_ascii c <=? 57))%N.

Definition digit_value (c : ascii) : Z := Z.of_N (N_of_ascii c) - 48.

Fixpoint digits_value (acc : Z) (s : string) : result Z :=
  match s with
  | EmptyString => Ok acc
  | String c s' =>
      if is_digit c then digits_value (10 * acc + digit_value c) s'
      else Raise ValueError
  end.

(** [int(s)] for the texts the program passes to it: decimal digits with an
    optional leading minus sign. *)
Definition int (s : string) : result Z :=
  match s with
  | EmptyString => Raise ValueError
  | String c s' =>
      if Ascii.eqb c "-" then
        match s' with
        | EmptyString => Raise ValueError
        | String _ _ => let* n := digits_value 0 s' in Ok (- n)
        end
      else digits_value 0 s
  end.

(** [str(n)] for an [int]. *)
Definition str_int (n : Z) : string := NilZero.string_of_int (Z.to_int n).

(** [sep.join(l)] *)
Fixpoint join (sep : string) (l : list string) : string :=
  match l with
  | [] => ""
  | [s] => s
  | s :: l' => s ++ sep ++ join sep l'
  end.

Fixpoint strip_prefix (p s : string) : option string :=
  match p, s with
  | EmptyString, _ => Some s
  | String a p', String b s' =>
      if Ascii.eqb a b then strip_prefix p' s' else None
  | String _ _, EmptyString => None
  end.

(** ** Regular expressions

    The fragment of [re] the two patterns use, with the backtracking
    semantics of the library: a pattern applied to a text gives its possible
    matches in the order the matcher tries them (greedy repetitions try the
    longer match first) and [re.search] takes the first one.  Both patterns
    start with [^], so a search only ever matches at offset 0. *)

Inductive regex : Type :=
| Lit (s : string)
| Digit
| Seq (r1 r2 : regex)
| Opt (r : regex)
| Rep (lo hi : nat) (r : regex)
| Group (r : regex).

(** consumed text, captured groups, remaining text *)
Definition attempt : Type := string * list string * string.

Definition then_ (w1 : string) (g1 : list string) (a : attempt) : attempt :=
  let '(w2, g2, s2) := a in (w1 ++ w2, (g1 ++ g2)%list, s2).

Fixpoint attempts (r : regex) (s : string) : list attempt :=
  match r with
  | Lit l =>
      match strip_prefix l s with
      | Some rest => [(l, [], rest)]
      | None => []
      end
  | Digit =>
      match s with
      | String c rest =>
          if is_digit c then [(String c EmptyString, [], rest)] else []
      | EmptyString => []
      end
  | Seq r1 r2 =>
      flat_map (fun a1 : attempt =>
                  let '(w1, g1, s1) := a1 in
                  map (then_ w1 g1) (attempts r2 s1))
               (attempts r1 s)
  | Opt r' => (attempts r' s ++ [("", [], s)])%list
  | Rep lo hi r' =>
      (fix rep (lo hi : nat) (s : string) {struct hi} : list attempt :=
         match hi with
         | O => [("", [], s)]
         | S hi' =>
             (flat_map (fun a1 : attempt =>
                          let '(w1, g1, s1) := a1 in
                          map (then_ w1 g1) (rep (Nat.pred lo) hi' s1))
                       (attempts r' s)
              ++ match lo with O => [("", [], s)] | S _ => [] end)%list
         end) lo hi s
  | Group r' =>
      map (fun a : attempt => let '(w, g, s') := a in (w, w :: g, s'))
          (attempts r' s)
  end.

(** [re.search("^...", text)] followed by [.groups()]; [None] when there is
    no match. *)
Definition re_search (r : regex) (text : string) : option (list string) :=
  match attempts r text with
  | (_, g, _) :: _ => Some g
  | [] => None
  end.

Declare Scope regex_scope.
Delimit Scope regex_scope with re.
Infix "+++" := Seq (at level 60, right associativity) : regex_scope.

(** The degree sign U+00B0 as it is encoded in the text. *)
Definition degree : string := String "194" (String "176" EmptyString).

Definition digits_1_2 : regex := Rep 1 2 Digit.
Definition digits_2 : regex := Rep 2 2 Digit.
Definition elevation_re : regex := Seq (Opt (Lit "-")) digits_1_2.

(** [^([0-9]{1,2}):([0-9]{2})(-?[0-9]{1,2})°] *)
Definition begin_end_re : regex :=
  (Group digits_1_2 +++ Lit ":" +++ Group digits_2
   +++ Group elevation_re +++ Lit degree)%re.

(** [^([0-9]{2})\.([0-9]{2})\. ([0-9]{1,2}):([0-9]{2})(-?[0-9]{1,2})°] *)
Definition center_re : regex :=
  (Group digits_2 +++ Lit "." +++ Group digits_2 +++ Lit ". "
   +++ begin_end_re)%re.

(** ** Dates and times

    [datetime.datetime(year, month, day, hour, minute, tzinfo=utc)] is the
    only way the program makes a date: seconds and microseconds are zero and
    the zone is UTC, so the record keeps the five fields that vary. *)

Record datetime : Type := mkDatetime {
  year : Z;
  month : Z;
  day : Z;
  hour : Z;
  minute : Z
}.

Definition is_leap (y : Z) : bool :=
  (y mod 4 =? 0) && (negb (y mod 100 =? 0) || (y mod 400 =? 0)).

Definition days_in_month (y m : Z) : Z :=
  if m =? 2 then (if is_leap y then 29 else 28)
  else if (m =? 4) || (m =? 6) || (m =? 9) || (m =? 11) then 30
  else 31.

Definition valid_date (y m d : Z) : bool :=
  (1 <=? y) && (y <=? 9999) && (1 <=? m) && (m <=? 12)
  && (1 <=? d) && (d <=? days_in_month y m).

Definition valid_clock (h mi : Z) : bool :=
  (0 <=? h) && (h <=? 23) && (0 <=? mi) && (mi <=? 59).

(** The constructor raises [ValueError] on a field out of range. *)
Definition make_datetime (y m d h mi : Z) : result datetime :=
  if valid_date y m d && valid_clock h mi then Ok (mkDatetime y m d h mi)
  else Raise ValueError.

(** [a < b] on two dates of the same zone: field by field. *)
Definition datetime_ltb (a b : datetime) : bool :=
  match year a ?= year b with
  | Lt => true
  | Gt => false
  | Eq =>
  match month a ?= month b with
  | Lt => true
  | Gt => false
  | Eq =>
  match day a ?= day b with
  | Lt => true
  | Gt => false
  | Eq =>
  match hour a ?= hour b with
  | Lt => true
  | Gt => false
  | Eq => minute a <? minute b
  end end end end.

(** A [datetime.time]: a time of day with an optional UTC offset in seconds
    ([None] for a naive time). *)
Record daytime : Type := mkDaytime {
  dt_hour : Z;
  dt_minute : Z;
  dt_second : Z;
  dt_microsecond : Z;
  utcoffset : option Z
}.

(** [d.timetz()] *)
Definition timetz (d : datetime) : daytime :=
  mkDaytime (hour d) (minute d) 0 0 (Some 0).

Definition base_compare (a b : daytime) : comparison :=
  match dt_hour a ?= dt_hour b with
  | Eq =>
  match dt_minute a ?= dt_minute b with
  | Eq =>
  match dt_second a ?= dt_second b with
  | Eq => dt_microsecond a ?= dt_microsecond b
  | c => c
  end
  | c => c
  end
  | c => c
  end.

Definition seconds_of_day (a : daytime) : Z :=
  dt_hour a * 3600 + dt_minute a * 60 + dt_second a.

(** Ordering two times of day: the fields are compared when both are naive
    or both have the same offset; two different offsets are subtracted
    first; a naive and an aware time cannot be ordered. *)
Definition daytime_compare (a b : daytime) : result comparison :=
  match utcoffset a, utcoffset b with
  | None, None => Ok (base_compare a b)
  | Some oa, Some ob =>
      if oa =? ob then Ok (base_compare a b)
      else
        Ok match (seconds_of_day a - oa) ?= (seconds_of_day b - ob) with
           | Eq => dt_microsecond a ?= dt_microsecond b
           | c => c
           end
  | _, _ => Raise TypeError
  end.

(** [a >= b] *)
Definition daytime_ge (a b : daytime) : result bool :=
  let* c := daytime_compare a b in
  Ok match c with Lt => false | _ => true end.

(** [a <= b] *)
Definition daytime_le (a b : daytime) : result bool :=
  let* c := daytime_compare a b in
  Ok match c with Gt => false | _ => true end.

(** ** Transits *)

(** [transit["begin"]], [transit["center"]] and [transit["end"]]: a
    dictionary that starts empty and receives the keys ["time"] and
    ["elevation"]. *)
Record Moment : Type := mkMoment {
  time : option datetime;
  elevation : option Z
}.

Record Transit : Type := mkTransit {
  object : string;
  mag_depth : spec_float;
  n_samples : option Z;
  begin : Moment;
  center : Moment;
  end_ : Moment
}.

(** The transit dictionaries live in a store; the list [transits] holds
    references to them. *)
Abbreviation heap := (gmap nat Transit).

(** The settings the pipeline reads; [min_start_time] and [max_end_time] are
    kept as the configured text and parsed where they are used. *)
Record Config : Type := mkConfig {
  min_mag_depth : spec_float;
  elevation_threshold : Z;
  min_start_time : string;
  max_end_time : string
}.

(** [a >= b] on floats. *)
Definition float_ge (a b : spec_float) : bool := SFleb b a.

(** ** Formatting dates *)

Definition pad2 (n : Z) : string :=
  if n <? 10 then "0" ++ str_int n else str_int n.

Definition pad4 (n : Z) : string :=
  if n <? 10 then "000" ++ str_int n
  else if n <? 100 then "00" ++ str_int n
  else if n <? 1000 then "0" ++ str_int n
  else str_int n.

(** [d.strftime("%Y-%m-%d %H:%M")] *)
Definition strftime (d : datetime) : string :=
  pad4 (year d) ++ "-" ++ pad2 (month d) ++ "-" ++ pad2 (day d)
  ++ " " ++ pad2 (hour d) ++ ":" ++ pad2 (minute d).

(** [d.astimezone(tz)] for the zone two hours east of UTC: the wall-clock
    fields of the same instant, two hours later; [OverflowError] past the
    last representable year. *)
Definition astimezone (d : datetime) : result datetime :=
  if hour d + 2 <? 24 then
    Ok (mkDatetime (year d) (month d) (day d) (hour d + 2) (minute d))
  else if day d <? days_in_month (year d) (month d) then
    Ok (mkDatetime (year d) (month d) (day d + 1) (hour d + 2 - 24) (minute d))
  else if month d <? 12 then
    Ok (mkDatetime (year d) (month d + 1) 1 (hour d + 2 - 24) (minute d))
  else if year d <? 9999 then
    Ok (mkDatetime (year d + 1) 1 1 (hour d + 2 - 24) (minute d))
  else Raise OverflowError.

(** ** The library

    The library and network functions the program calls; the pipeline is
    stated over any implementation of them. *)
Class Library : Type := {
  (** [float(text)] *)
  float : string -> result spec_float;
  (** [str(x)] for a float *)
  str_float : spec_float -> string;
  (** [datetime.time.fromisoformat(text)] *)
  fromisoformat : string -> result daytime;
  (** The request to the transit database for an object and the reading of
      the sample count out of the page it returns. *)
  get_database_sample_number : string -> result Z
}.

(** ** Filter functions *)

Definition filter_time `{L : Library} (transit : Transit) (config : Config)
  : result bool :=
  let* t_min := fromisoformat (min_start_time config) in
  let* t_max := fromisoformat (max_end_time config) in
  let* b := getitem (time (begin transit)) in
  let start_time := timetz b in
  let* e := getitem (time (end_ transit)) in
  let end_time := timetz e in
  let* lower := daytime_ge start_time t_min in
  if lower then
    let* upper := daytime_le end_time t_max in
    if upper then Ok true else Ok false
  else Ok false.

Definition filter_meridian_flip (transit : Transit) : result bool :=
  let* be := getitem (elevation (begin transit)) in
  let* ce := getitem (elevation (center transit)) in
  let* ee := getitem (elevation (end_ transit)) in
  if (be <? ce) && (ee <? ce) then Ok false else Ok true.

Definition filter_elevation (transit : Transit) (config : Config)
  : result bool :=
  let* be := getitem (elevation (begin transit)) in
  if be <? elevation_threshold config then Ok false else
  let* ee := getitem (elevation (end_ transit)) in
  if ee <? elevation_threshold config then Ok false else
  let* ce := getitem (elevation (center transit)) in
  if ce <? elevation_threshold config then Ok false else
  Ok true.

(** [lambda t: t["mag_depth"] >= config["min_mag_depth"]] *)
Definition filter_depth (transit : Transit) (config : Config) : result bool :=
  Ok (float_ge (mag_depth transit) (min_mag_depth config)).

(** ** Reading the table *)

(** One [tr] of the table: the text of its first link ([tr.find("a")],
    [None] when the row has no link) and the text of its cells. *)
Record Row : Type := mkRow {
  a_string : option string;
  tds : list string
}.

Definition empty_moment : Moment := mkMoment None None.

Inductive dict_key : Type := Kbegin | Kend.

(** [transit[dict_key] = m] *)
Definition set_moment (transit : Transit) (dict_key : dict_key) (m : Moment)
  : Transit :=
  match dict_key with
  | Kbegin =>
      mkTransit (object transit) (mag_depth transit) (n_samples transit)
                m (center transit) (end_ transit)
  | Kend =>
      mkTransit (object transit) (mag_depth transit) (n_samples transit)
                (begin transit) (center transit) m
  end.

(** The closure of [main]; [year], [month], [day] and [transit] are the
    variables it captures.  Without a match nothing is assigned. *)
Definition extractStartEndTimes (year month day : Z) (transit : Transit)
    (text : string) (dict_key : dict_key) : result Transit :=
  match re_search begin_end_re text with
  | Some [g0; g1; g2] =>
      let* hour := int g0 in
      let* minute := int g1 in
      let* elevation := int g2 in
      let* t := make_datetime year month day hour minute in
      Ok (set_moment transit dict_key (mkMoment (Some t) (Some elevation)))
  | _ => Ok transit
  end.

(** What one turn of the loop over the rows does. *)
Inductive row_result : Type :=
| Skipped                     (* [continue] *)
| Unparsable                  (* the message is printed and [main] returns *)
| Appended (transit : Transit).

Definition read_row `{L : Library} (year : Z) (tr : Row)
  : result row_result :=
  match a_string tr with
  | None => Ok Skipped
  | Some name =>
      let* depth_text := index (tds tr) 6 in
      let* depth := float depth_text in
      let* center_text := index (tds tr) 2 in
      match re_search center_re center_text with
      | Some [g0; g1; g2; g3; g4] =>
          let* day := int g0 in
          let* month := int g1 in
          let* hour := int g2 in
          let* minute := int g3 in
          let* elevation := int g4 in
          let* t := make_datetime year month day hour minute in
          let transit :=
            mkTransit name depth None empty_moment
                      (mkMoment (Some t) (Some elevation)) empty_moment in
          let* begin_text := index (tds tr) 1 in
          let* transit :=
            extractStartEndTimes year month day transit begin_text Kbegin in
          let* end_text := index (tds tr) 3 in
          let* transit :=
            extractStartEndTimes year month day transit end_text Kend in
          Ok (Appended transit)
      | _ => Ok Unparsable
      end
  end.

Definition deref (h : heap) (l : nat) : result Transit :=
  match h !! l with
  | Some transit => Ok transit
  | None => Raise SystemError
  end.

Inductive read_result : Type :=
| Read (h : heap) (transits : list nat)
| Stopped (message : string).

Definition parse_message : string := "Could not parse string '{center_text}'".

Fixpoint read_rows `{L : Library} (year : Z) (rows : list Row) (h : heap)
    (transits : list nat) : result read_result :=
  match rows with
  | [] => Ok (Read h transits)
  | tr :: rows' =>
      let* r := read_row year tr in
      match r with
      | Skipped => read_rows year rows' h transits
      | Unparsable => Ok (Stopped parse_message)
      | Appended transit =>
          let l := fresh (dom h) in
          read_rows year rows' (<[l := transit]> h) (transits ++ [l])%list
      end
  end.

(** ** Filtering

    The four [filter] objects are lazy and nested: [list(transits)] draws
    one candidate at a time through the four predicates, in order, and a
    candidate a predicate rejects never reaches the next one. *)

Definition admissible `{L : Library} (config : Config) (transit : Transit)
  : result bool :=
  let* deep := filter_depth transit config in
  if deep then
    let* no_flip := filter_meridian_flip transit in
    if no_flip then
      let* in_window := filter_time transit config in
      if in_window then filter_elevation transit config else Ok false
    else Ok false
  else Ok false.

Fixpoint select (keep : Transit -> result bool) (h : heap)
    (transits : list nat) : result (list nat) :=
  match transits with
  | [] => Ok []
  | l :: transits' =>
      let* transit := deref h l in
      let* k := keep transit in
      let* rest := select keep h transits' in
      Ok (if k then l :: rest else rest)
  end.

(** ** Sample counts *)

(** [transit["n_samples"] = n] *)
Definition set_n_samples (n : Z) (transit : Transit) : Transit :=
  mkTransit (object transit) (mag_depth transit) (Some n)
            (begin transit) (center transit) (end_ transit).

Fixpoint enrich `{L : Library} (h : heap) (transits : list nat)
  : result heap :=
  match transits with
  | [] => Ok h
  | l :: transits' =>
      let* transit := deref h l in
      let* n := get_database_sample_number (object transit) in
      enrich (<[l := set_n_samples n transit]> h) transits'
  end.

(** ** Ranking

    [transits.sort(key=...)] computes the key of every element first and
    then sorts stably, in ascending order of the keys.  An insertion sort
    stands for the library's sort: ascending order and stability leave no
    other result ([stable_sort_unique]). *)

Fixpoint insert_by_key (x : Z * nat) (l : list (Z * nat)) : list (Z * nat) :=
  match l with
  | [] => [x]
  | y :: l' => if fst x <=? fst y then x :: l else y :: insert_by_key x l'
  end.

Fixpoint sort_by_key (l : list (Z * nat)) : list (Z * nat) :=
  match l with
  | [] => []
  | x :: l' => insert_by_key x (sort_by_key l')
  end.

Definition sort_key (h : heap) (l : nat) : result Z :=
  let* transit := deref h l in
  getitem (n_samples transit).

Fixpoint sort_keys (h : heap) (transits : list nat)
  : result (list (Z * nat)) :=
  match transits with
  | [] => Ok []
  | l :: transits' =>
      let* k := sort_key h l in
      let* rest := sort_keys h transits' in
      Ok ((k, l) :: rest)
  end.

Definition sort_transits (h : heap) (transits : list nat)
  : result (list nat) :=
  let* keyed := sort_keys h transits in
  Ok (map snd (sort_by_key keyed)).

(** ** Output *)

Definition header : list string :=
  ["object"; "mag_depth"; "n_samples"; "begin time (cest)";
   "begin elevation"; "center time (cest)"; "center elevation";
   "end time (cest)"; "end elevation"].

Definition moment_time (m : Moment) : result string :=
  let* t := getitem (time m) in
  let* local := astimezone t in
  Ok (strftime local).

Definition moment_elevation (m : Moment) : result string :=
  let* e := getitem (elevation m) in
  Ok (str_int e).

(** The list [data] of one transit. *)
Definition csv_data `{L : Library} (transit : Transit)
  : result (list string) :=
  let* n := getitem (n_samples transit) in
  let* bt := moment_time (begin transit) in
  let* be := moment_elevation (begin transit) in
  let* ct := moment_time (center transit) in
  let* ce := moment_elevation (center transit) in
  let* et := moment_time (end_ transit) in
  let* ee := moment_elevation (end_ transit) in
  Ok [object transit; str_float (mag_depth transit); str_int n;
      bt; be; ct; ce; et; ee].

(** What a run leaves on standard output, and the exception that ended it
    if one did. *)
Record outcome : Type := mkOutcome {
  stdout : list string;
  raised : option exn
}.

Fixpoint print_rows `{L : Library} (h : heap) (transits : list nat)
  : outcome :=
  match transits with
  | [] => mkOutcome [] None
  | l :: transits' =>
      match (let* transit := deref h l in csv_data transit) with
      | Ok data =>
          let rest := print_rows h transits' in
          mkOutcome (join ";" data :: stdout rest) (raised rest)
      | Raise e => mkOutcome [] (Some e)
      end
  end.

Definition print_transits_csv `{L : Library} (h : heap) (transits : list nat)
  : outcome :=
  let rows := print_rows h transits in
  mkOutcome (join ";" header :: stdout rows) (raised rows).

(** ** The run

    [main] from the rows of the fetched table on: [config] is what
    [configmanager.readConfig()] returned, [year] is
    [datetime.date.today().year] and [rows] are the [tr] elements with
    [valign="top"] of the table in the response. *)

Definition rank `{L : Library} (config : Config) (h : heap)
    (transits : list nat) : result (heap * list nat) :=
  let* transits := select (admissible config) h transits in
  let* h := enrich h transits in
  let* transits := sort_transits h transits in
  Ok (h, transits).

Definition main `{L : Library} (config : Config) (year : Z) (rows : list Row)
  : outcome :=
  match read_rows year rows ∅ [] with
  | Raise e => mkOutcome [] (Some e)
  | Ok (Stopped message) => mkOutcome [message] None
  | Ok (Read h transits) =>
      match rank config h transits with
      | Raise e => mkOutcome [] (Some e)
      | Ok (h', ranked) => print_transits_csv h' ranked
      end
  end.

(** ** Reading the values

    The numbers behind the values the filters compare, and the shape of the
    texts the patterns accept. *)

Fixpoint all_digits (s : string) : bool :=
  match s with
  | EmptyString => true
  | String c s' => is_digit c && all_digits s'
  end.

(** Between [lo] and [hi] characters, all of them digits. *)
Definition digits_between (lo hi : nat) (s : string) : bool :=
  all_digits s && (lo <=? String.length s)%nat
  && (String.length s <=? hi)%nat.

Fixpoint decimal_from (acc : Z) (s : string) : Z :=
  match s with
  | EmptyString => acc
  | String c s' => decimal_from (10 * acc + digit_value c) s'
  end.

(** The number a run of digits writes. *)
Definition decimal (s : string) : Z := decimal_from 0 s.

Definition signed (sign : string) (n : Z) : Z :=
  if String.eqb sign "-" then - n else n.

(** A float of the binary64 format that is a number: a zero or a mantissa
    and an exponent in canonical form. *)
Definition finite64 (x : spec_float) : bool :=
  match x with
  | S754_zero _ => true
  | S754_finite _ m e => bounded 53 1024 m e
  | _ => false
  end.

(** The number a finite binary64 stands for, counted in units of 2^-1074
    (the smallest positive binary64), which makes it an integer. *)
Definition float_units (x : spec_float) : Z :=
  match x with
  | S754_finite s m e =>
      if s then - (Z.pos m * 2 ^ (e + 1074)) else Z.pos m * 2 ^ (e + 1074)
  | _ => 0
  end.

(** The ranges [datetime.time] keeps its fields in. *)
Definition valid_daytime (t : daytime) : bool :=
  valid_clock (dt_hour t) (dt_minute t)
  && (0 <=? dt_second t) && (dt_second t <=? 59)
  && (0 <=? dt_microsecond t) && (dt_microsecond t <=? 999999).

(** A time of day with offset [offset] as microseconds after midnight UTC. *)
Definition utc_microsecond (t : daytime) (offset : Z) : Z :=
  (seconds_of_day t - offset) * 1000000 + dt_microsecond t.

(** The same for the clock of a date the program made (UTC, whole minutes);
    the calendar date plays no part. *)
Definition clock_microsecond (d : datetime) : Z :=
  (hour d * 3600 + minute d * 60) * 1000000.

(** The sample count behind a reference (0 while there is none). *)
Definition sample_count (h : heap) (l : nat) : Z :=
  match h !! l with
  | Some transit => default 0 (n_samples transit)
  | None => 0
  end.

(** The pair the sort works on: the key of a reference and the reference. *)
Definition keyed (h : heap) (l : nat) : Z * nat := (sample_count h l, l).

Definition key_le (a b : Z * nat) : Prop := fst a <= fst b.

Definition has_key (k : Z) (p : Z * nat) : bool := fst p =? k.

(** A date made for the day [d] of the month [m] of the year [y]. *)
Definition on_date (y m d : Z) (t : datetime) : Prop :=
  year t = y /\ month t = m /\ day t = d
  /\ valid_date y m d = true /\ valid_clock (hour t) (minute t) = true.

(** A begin or end as the reading of a row leaves it: untouched, or with
    both keys set and a time on the date of the row. *)
Definition read_moment (y m d : Z) (mo : Moment) : Prop :=
  mo = empty_moment
  \/ exists t el, mo = mkMoment (Some t) (Some el) /\ on_date y m d t.

(** What holds of the store and the list while the table is read: the
    references are distinct and live, and no transit has a sample count. *)
Definition freshly_read (h : heap) (transits : list nat) : Prop :=
  NoDup transits
  /\ (forall l, l ∈ transits -> is_Some (h !! l))
  /\ (forall l transit, h !! l = Some transit -> n_samples transit = None).

(** Two [filter] objects, one drawing from the other. *)
Definition and_then (p q : Transit -> result bool) (transit : Transit)
  : result bool :=
  let* a := p transit in
  if a then q transit else Ok false.

(** The parts of a time field: the digits of the hour, of the minute and
    of the elevation, the sign of the elevation, and what follows the degree
    sign. *)
Record clock_text : Type := mkClockText {
  hour_digits : string;
  minute_digits : string;
  elevation_sign : string;
  elevation_digits : string;
  remainder : string
}.

Definition field_text (f : clock_text) : string :=
  hour_digits f ++ ":" ++ minute_digits f ++ elevation_sign f
  ++ elevation_digits f ++ degree ++ remainder f.

(** The parts have the widths the patterns ask for and give a time the
    constructor accepts. *)
Definition clock_shape (f : clock_text) : Prop :=
  digits_between 1 2 (hour_digits f) = true
  /\ digits_between 2 2 (minute_digits f) = true
  /\ (elevation_sign f = "" \/ elevation_sign f = "-")
  /\ digits_between 1 2 (elevation_digits f) = true
  /\ valid_clock (decimal (hour_digits f)) (decimal (minute_digits f)) = true.

(** The moment a time field gives on the date [y]-[m]-[d]. *)
Definition field_moment (y m d : Z) (f : clock_text) : Moment :=
  mkMoment
    (Some (mkDatetime y m d (decimal (hour_digits f))
                      (decimal (minute_digits f))))
    (Some (signed (elevation_sign f) (decimal (elevation_digits f)))).

(** Begin before center before end. *)
Definition chronological (transit : Transit) : Prop :=
  exists b c e,
    time (begin transit) = Some b /\ time (center transit) = Some c
    /\ time (end_ transit) = Some e
    /\ datetime_ltb b c = true /\ datetime_ltb c e = true.

(** Minutes after midnight. *)
Definition clock_minutes (d : datetime) : Z := hour d * 60 + minute d.

(** The days before the first of January of year [y], and before the first
    of month [m] in year [y]. *)
Definition days_before_year (y : Z) : Z :=
  (y - 1) * 365 + (y - 1) / 4 - (y - 1) / 100 + (y - 1) / 400.

Definition days_before_month (y m : Z) : Z :=
  (if m <=? 1 then 0 else if m =? 2 then 31 else if m =? 3 then 59
   else if m =? 4 then 90 else if m =? 5 then 120 else if m =? 6 then 151
   else if m =? 7 then 181 else if m =? 8 then 212 else if m =? 9 then 243
   else if m =? 10 then 273 else if m =? 11 then 304 else 334)
  + (if (2 <? m) && is_leap y then 1 else 0).

(** The instant a date denotes in its zone: minutes since the start of the
    year 1. *)
Definition minute_number (d : datetime) : Z :=
  ((days_before_year (year d) + days_before_month (year d) (month d) + day d)
   * 24 + hour d) * 60 + minute d.

(** A moment with both keys, a time the constructor accepts and a year
    before the last. *)
Definition renderable (m : Moment) : bool :=
  match time m, elevation m with
  | Some d, Some _ =>
      valid_date (year d) (month d) (day d)
      && valid_clock (hour d) (minute d) && (year d <? 9999)
  | _, _ => false
  end.

(** A transit with every key the output reads. *)
Definition printable (transit : Transit) : bool :=
  match n_samples transit with
  | Some _ =>
      renderable (begin transit) && renderable (center transit)
      && renderable (end_ transit)
  | None => false
  end.

(** What the output shows of a moment: its time two hours ahead of UTC and
    its elevation. *)
Definition rendered (m : Moment) (time_text elevation_text : string) : Prop :=
  exists d el zoned,
    m = mkMoment (Some d) (Some el)
    /\ astimezone d = Ok zoned
    /\ minute_number zoned = minute_number d + 120
    /\ time_text = strftime zoned
    /\ elevation_text = str_int el.

(** ** The readable output *)

(** [str(d)] for a date the program made: the ISO form with a space between
    date and time, with the seconds and the offset of UTC. *)
Definition str_datetime (d : datetime) : string :=
  pad4 (year d) ++ "-" ++ pad2 (month d) ++ "-" ++ pad2 (day d)
  ++ " " ++ pad2 (hour d) ++ ":" ++ pad2 (minute d) ++ ":00+00:00".

(** The line [f"{m['time']} @ {m['elevation']}°"] *)
Definition moment_line (m : Moment) : result string :=
  let* t := getitem (time m) in
  let* e := getitem (elevation m) in
  Ok (str_datetime t ++ " @ " ++ str_int e ++ degree).

(** The lines one turn of the loop of [print_transits] prints, up to the
    exception that ends it if one does. *)
Definition print_transit `{L : Library} (transit : Transit) : outcome :=
  let head :=
    (object transit
       :: match n_samples transit with
          | Some n => [str_int n]
          | None => []
          end
       ++ [str_float (mag_depth transit)])%list in
  match moment_line (begin transit) with
  | Raise e => mkOutcome head (Some e)
  | Ok b =>
      match moment_line (center transit) with
      | Raise e => mkOutcome (head ++ [b])%list (Some e)
      | Ok c =>
          match moment_line (end_ transit) with
          | Raise e => mkOutcome (head ++ [b; c])%list (Some e)
          | Ok e => mkOutcome (head ++ [b; c; e; ""])%list None
          end
      end
  end.

Fixpoint print_transits `{L : Library} (h : heap) (transits : list nat)
  : outcome :=
  match transits with
  | [] => mkOutcome [] None
  | l :: transits' =>
      match deref h l with
      | Raise e => mkOutcome [] (Some e)
      | Ok transit =>
          let this := print_transit transit in
          match raised this with
          | Some _ => this
          | None =>
              let rest := print_transits h transits' in
              mkOutcome (stdout this ++ stdout rest)%list (raised rest)
          end
      end
  end.

(** ** The request for the sample count *)

(** The characters of a text: a character starts at every byte that is not
    a continuation byte of the encoding. *)
Definition is_continuation (c : ascii) : bool :=
  ((128 <=? N_of_ascii c) && (N_of_ascii c <=? 191))%N.

Definition starts_with_continuation (s : string) : bool :=
  match s with
  | String c _ => is_continuation c
  | EmptyString => false
  end.

Fixpoint code_points (s : string) : list string :=
  match s with
  | EmptyString => []
  | String c s' =>
      if starts_with_continuation s' then
        match code_points s' with
        | g :: gs => String c g :: gs
        | [] => [String c EmptyString]
        end
      else String c EmptyString :: code_points s'
  end.

(** [s[:-2]] *)
Definition all_but_last_two (s : string) : string :=
  let cs := code_points s in
  String.concat "" (firstn (length cs - 2) cs).

(** [s[-1]] *)
Definition last_character (s : string) : result string :=
  match last (code_points s) with
  | Some c => Ok c
  | None => Raise IndexError
  end.

Definition is_unreserved (c : ascii) : bool :=
  let n := N_of_ascii c in
  (((65 <=? n) && (n <=? 90)) || ((97 <=? n) && (n <=? 122))
   || ((48 <=? n) && (n <=? 57))
   || (n =? 95) || (n =? 46) || (n =? 45) || (n =? 126))%N.

Definition hex_digit (n : N) : ascii :=
  match String.get (N.to_nat n) "0123456789ABCDEF" with
  | Some c => c
  | None => "0"%char
  end.

(** What [quote_plus] writes for one byte of the encoded text. *)
Definition quote_byte (c : ascii) : string :=
  if is_unreserved c then String c EmptyString
  else if Ascii.eqb c " " then "+"
  else String "%" (String (hex_digit (N_of_ascii c / 16))
                     (String (hex_digit (N_of_ascii c mod 16)) EmptyString)).

(** [urllib.parse.quote_plus(s)] *)
Fixpoint quote_plus (s : string) : string :=
  match s with
  | EmptyString => EmptyString
  | String c s' => quote_byte c ++ quote_plus s'
  end.

(** [urllib.parse.urlencode(query)] for the items of a dictionary of
    texts. *)
Definition urlencode (query : list (string * string)) : string :=
  join "&" (map (fun kv => quote_plus (fst kv) ++ "=" ++ quote_plus (snd kv))
                query).

(** The address [get_database_sample_number] requests. *)
Definition sample_number_url (planet_base_url star planet : string)
  : string :=
  planet_base_url ++ "?"
  ++ urlencode [("STARNAME", star); ("PLANET", planet)].

(** [get_database_sample_number(config, star_and_planet)]; [request] stands
    for the opening of the address, the search of the page for the cell of
    the sample count and the conversion of its text. *)
Definition database_sample_number (request : string -> result Z)
    (planet_base_url star_and_planet : string) : result Z :=
  let star := all_but_last_two star_and_planet in
  let* planet := last_character star_and_planet in
  request (sample_number_url planet_base_url star planet).

(** The address of the table of transits [main] requests. *)
Definition table_url (base_url : string) : string :=
  base_url ++ "?"
  ++ urlencode [("init", "2023-06-19"); ("till", "2023-06-23");
                ("f", "userdefined")].

(** ** What the reading of the table leaves *)

(** A candidate as the reading of a row in the year [y] leaves it: a center
    with both keys on a date that exists, a begin and an end each with both
    keys on that date or with none, and no sample count. *)
Definition well_read (y : Z) (transit : Transit) : Prop :=
  exists m d c ce,
    n_samples transit = None
    /\ center transit = mkMoment (Some c) (Some ce)
    /\ on_date y m d c
    /\ read_moment y m d (begin transit)
    /\ read_moment y m d (end_ transit).

(** The candidate behind a reference carries the name [name]. *)
Definition names (y : Z) (h : heap) (l : nat) (name : string) : Prop :=
  exists transit,
    h !! l = Some transit /\ object transit = name /\ well_read y transit.

(** ** Numerals *)


(** ** Keys *)

(** A moment with both keys. *)
Definition has_keys (m : Moment) : bool :=
  match time m, elevation m with
  | Some _, Some _ => true
  | _, _ => false
  end.

(** A transit whose three moments have both keys. *)
Definition has_moments (transit : Transit) : bool :=
  has_keys (begin transit) && has_keys (center transit)
  && has_keys (end_ transit).

(** The transit behind a reference has a sample count. *)
Definition counted (h : heap) (l : nat) : bool :=
  match h !! l with
  | Some transit =>
      match n_samples transit with Some _ => true | None => false end
  | None => false
  end.

(** ** Characters and addresses *)

(** A text that is one character: it starts a character and holds no
    other. *)
Definition is_character (p : string) : Prop :=
  starts_with_continuation p = false /\ code_points p = [p].

Definition hex_value (c : ascii) : N :=
  let n := N_of_ascii c in
  (if (48 <=? n) && (n <=? 57) then n - 48
   else if (65 <=? n) && (n <=? 70) then n - 55
   else 0)%N.

(** The text [quote_plus] was given, read back from what it wrote. *)
Fixpoint unquote (s : string) : string :=
  match s with
  | EmptyString => EmptyString
  | String c s' =>
      if Ascii.eqb c "+" then String " " (unquote s')
      else if Ascii.eqb c "%" then
        match s' with
        | String a (String b s'') =>
            String (ascii_of_N (16 * hex_value a + hex_value b)) (unquote s'')
        | _ => String c (unquote s')
        end
      else String c (unquote s')
  end.

Fixpoint contains (c : ascii) (s : string) : bool :=
  match s with
  | EmptyString => false
  | String a s' => Ascii.eqb a c || contains c s'
  end.

(** ** Another database *)

(** The library with another answer of the transit database. *)
Definition with_database (L : Library) (answer : string -> result Z)
  : Library :=
  Build_Library (float (Library := L)) (str_float (Library := L))
                (fromisoformat (Library := L)) answer.

(** ** A library and a table for the examples *)

(** Binary64 values of powers of two. *)
Definition float_0_5 : spec_float := S754_finite false 4503599627370496 (-53).
Definition float_0_015625 : spec_float :=
  S754_finite false 4503599627370496 (-58).
Definition float_0_0078125 : spec_float :=
  S754_finite false 4503599627370496 (-59).

(** [float] on the depth texts of the examples. *)
Definition example_float (text : string) : result spec_float :=
  if String.eqb text "0.5" then Ok float_0_5
  else if String.eqb text "0.015625" then Ok float_0_015625
  else if String.eqb text "0.0078125" then Ok float_0_0078125
  else Raise ValueError.

(** [str] on the same three floats. *)
Definition example_str_float (x : spec_float) : string :=
  match x with
  | S754_finite false 4503599627370496 (-53) => "0.5"
  | S754_finite false 4503599627370496 (-58) => "0.015625"
  | S754_finite false 4503599627370496 (-59) => "0.0078125"
  | _ => "nan"
  end.

Definition hh_mm : regex := (Group digits_2 +++ Lit ":" +++ Group digits_2)%re.

Definition clock_prefix (s : string) : option (Z * Z * string) :=
  match attempts hh_mm s with
  | (_, [h; m], rest) :: _ =>
      match int h, int m with
      | Ok h, Ok m => if valid_clock h m then Some (h, m, rest) else None
      | _, _ => None
      end
  | _ => None
  end.

(** [fromisoformat] on the forms [HH:MM], which gives a naive time, and
    [HH:MM+HH:MM] and [HH:MM-HH:MM], which give a time with that offset. *)
Definition example_fromisoformat (text : string) : result daytime :=
  match clock_prefix text with
  | Some (h, m, EmptyString) => Ok (mkDaytime h m 0 0 None)
  | Some (h, m, String sign offset) =>
      match clock_prefix offset with
      | Some (oh, om, EmptyString) =>
          if Ascii.eqb sign "+" then
            Ok (mkDaytime h m 0 0 (Some ((oh * 60 + om) * 60)))
          else if Ascii.eqb sign "-" then
            Ok (mkDaytime h m 0 0 (Some (- ((oh * 60 + om) * 60))))
          else Raise ValueError
      | _ => Raise ValueError
      end
  | None => Raise ValueError
  end.

(** The sample counts the database returns in the examples. *)
Definition example_sample_number (name : string) : result Z :=
  if String.eqb name "HAT-P-1 b" then Ok 5
  else if String.eqb name "WASP-2 b" then Ok 2
  else if String.eqb name "XO-3 b" then Ok 2
  else if String.eqb name "TrES-4 b" then Ok 9
  else Raise URLError.

Definition example_library : Library :=
  {| float := example_float;
     str_float := example_str_float;
     fromisoformat := example_fromisoformat;
     get_database_sample_number := example_sample_number |}.

(** Depth at least 0.015625, elevation at least 20 degrees, between 18:00
    and 23:00 UTC. *)
Definition example_config : Config :=
  mkConfig float_0_015625 20 "18:00+00:00" "23:00+00:00".

(** The same window written without an offset. *)
Definition naive_config : Config := mkConfig float_0_015625 20 "18:00" "23:00".

(** A row of the table: [clock] and [el] are the digits of a time and of an
    elevation. *)
Definition field (clock el : string) : string := clock ++ el ++ degree ++ ",NE".

Definition example_row (name b c e depth : string) : Row :=
  mkRow (Some name) [name; b; c; e; "2.5"; "11.4"; depth].

Definition row_hat_p_1 : Row :=
  example_row "HAT-P-1 b" (field "19:00" "30") (field "08.06. 20:00" "35")
              (field "21:00" "40") "0.5".

Definition example_rows : list Row :=
  [ mkRow None ["OBJECT"; "BEGIN"; "CENTER"; "END"; "D"; "V"; "DEPTH"];
    row_hat_p_1;
    example_row "WASP-2 b" (field "18:00" "20") (field "08.06. 20:30" "21")
                (field "23:00" "22") "0.015625";
    example_row "Qatar-1 b" (field "19:00" "30") (field "08.06. 20:00" "35")
                (field "21:00" "40") "0.0078125";
    example_row "XO-3 b" (field "20:05" "69") (field "09.06. 21:09" "70")
                (field "22:10" "71") "0.5";
    example_row "KELT-4A b" (field "19:00" "30") (field "09.06. 20:00" "60")
                (field "21:00" "40") "0.5";
    example_row "TrES-4 b" (field "19:00" "50") (field "10.06. 20:00" "40")
                (field "21:00" "30") "0.5";
    example_row "CoRoT-5 b" (field "17:59" "30") (field "10.06. 20:00" "35")
                (field "21:00" "40") "0.5";
    example_row "GJ-436 b" (field "19:00" "30") (field "10.06. 20:00" "25")
                (field "21:00" "19") "0.5" ].

(** A row whose clock times run backwards: the begin is at 23:50 and the
    center at 00:10 of the same date. *)
Definition row_backwards : Row :=
  example_row "HAT-P-1 b" (field "23:50" "10") (field "08.06. 00:10" "20")
              (field "00:30" "30") "0.5".

(** Rows whose begin field is not of the expected form, one shallower than
    the configured depth and one deep enough. *)
Definition row_bad_begin_shallow : Row :=
  example_row "Qatar-1 b" "n/a" (field "08.06. 20:00" "35")
              (field "21:00" "40") "0.0078125".

Definition row_bad_begin_deep : Row :=
  example_row "Qatar-1 b" "n/a" (field "08.06. 20:00" "35")
              (field "21:00" "40") "0.5".

(** A transit with the given clock times on 8 June 2023, elevations and
    sample count. *)
Definition example_transit (bh bm be ch cm ce eh em ee : Z) (n : option Z)
  : Transit :=
  mkTransit "HAT-P-1 b" float_0_5 n
            (mkMoment (Some (mkDatetime 2023 6 8 bh bm)) (Some be))
            (mkMoment (Some (mkDatetime 2023 6 8 ch cm)) (Some ce))
            (mkMoment (Some (mkDatetime 2023 6 8 eh em)) (Some ee)).

(** Four transits with the sample counts 5, 2, 2 and 9. *)
Definition counted_store : heap :=
  <[3%nat := example_transit 19 0 30 20 0 35 21 0 40 (Some 9)]>
  (<[2%nat := example_transit 19 0 31 20 0 35 21 0 40 (Some 2)]>
   (<[1%nat := example_transit 19 0 32 20 0 35 21 0 40 (Some 2)]>
    (<[0%nat := example_transit 19 0 33 20 0 35 21 0 40 (Some 5)]> ∅))).

(** The store and the list after the example table is read. *)
Definition example_store : heap :=
  match read_rows (L := example_library) 2023 example_rows ∅ [] with
  | Ok (Read h _) => h
  | _ => ∅
  end.

Definition example_transits : list nat :=
  match read_rows (L := example_library) 2023 example_rows ∅ [] with
  | Ok (Read _ transits) => transits
  | _ => []
  end.

(** The store and the list after the ranking. *)
Definition example_ranked_store : heap :=
  match rank (L := example_library) example_config
             example_store example_transits with
  | Ok (h, _) => h
  | Raise _ => ∅
  end.

Definition example_ranked : list nat :=
  match rank (L := example_library) example_config
             example_store example_transits with
  | Ok (_, ranked) => ranked
  | Raise _ => []
  end.

(** The transit the reading of [row_hat_p_1] gives. *)
Definition hat_p_1 : Transit := example_transit 19 0 30 20 0 35 21 0 40 None.

(** Elevations 10, 30, 15: the object culminates inside the transit. *)
Definition flip_transit : Transit :=
  example_transit 19 0 10 20 0 30 21 0 15 None.

(** Begin at 18:00 and end at 23:00. *)
Definition window_transit : Transit :=
  example_transit 18 0 30 20 0 35 23 0 40 None.

(** Elevations 25, 20 and 30. *)
Definition threshold_transit : Transit :=
  example_transit 19 0 25 20 0 20 21 0 30 None.

(** A row whose center field is not of the expected form. *)
Definition row_bad_center : Row :=
  example_row "Qatar-1 b" (field "19:00" "30") "n/a" (field "21:00" "40") "0.5".

(** The header line of the delimited output. *)
Definition labelled_header : string :=
  "object;mag_depth;n_samples;begin time (cest);begin elevation;center time (cest);center elevation;end time (cest);end elevation".

(** The header the delimited output would have without its zone labels. *)
Definition unlabelled_header : string :=
  "object;mag_depth;n_samples;begin time;begin elevation;center time;center elevation;end time;end elevation".

(** A row with a link and two cells. *)
Definition row_short : Row := mkRow (Some "HAT-P-1 b") ["HAT-P-1 b"; "n/a"].

(** A row of an object the example database does not know. *)
Definition row_unknown : Row :=
  example_row "Qatar-1 b" (field "19:00" "30") (field "08.06. 20:00" "35")
              (field "21:00" "40") "0.5".

(** The store and the list after a table of one row is read. *)
Definition one_row_store : heap :=
  match read_rows (L := example_library) 2023 [row_hat_p_1] ∅ [] with
  | Ok (Read h _) => h
  | _ => ∅
  end.

Definition one_row_transits : list nat :=
  match read_rows (L := example_library) 2023 [row_hat_p_1] ∅ [] with
  | Ok (Read _ transits) => transits
  | _ => []
  end.

(** A table whose second row has a begin the pattern does not match, and
    the store after it is read. *)
Definition unread_rows : list Row :=
  [row_hat_p_1; row_bad_begin_deep; row_hat_p_1].

Definition unread_store : heap :=
  match read_rows (L := example_library) 2023 unread_rows ∅ [] with
  | Ok (Read h _) => h
  | _ => ∅
  end.

(** The transit the reading of [row_bad_begin_deep] gives. *)
Definition unread_begin_transit : Transit :=
  mkTransit "Qatar-1 b" float_0_5 None empty_moment
            (mkMoment (Some (mkDatetime 2023 6 8 20 0)) (Some 35))
            (mkMoment (Some (mkDatetime 2023 6 8 21 0)) (Some 40)).

(** A table whose second row names an object the example database does not
    know, and the store after it is read. *)
Definition unknown_rows : list Row := [row_hat_p_1; row_unknown; row_hat_p_1].

Definition unknown_store : heap :=
  match read_rows (L := example_library) 2023 unknown_rows ∅ [] with
  | Ok (Read h _) => h
  | _ => ∅
  end.

(** The transit the reading of [row_unknown] gives. *)
Definition unknown_transit : Transit :=
  mkTransit "Qatar-1 b" float_0_5 None
            (mkMoment (Some (mkDatetime 2023 6 8 19 0)) (Some 30))
            (mkMoment (Some (mkDatetime 2023 6 8 20 0)) (Some 35))
            (mkMoment (Some (mkDatetime 2023 6 8 21 0)) (Some 40)).

(** The night from 22:00 to 04:00, two hours east of UTC. *)
Definition night_config : Config :=
  mkConfig float_0_015625 20 "22:00+02:00" "04:00+02:00".

(** A transit from 00:30 to 01:30 UTC. *)
Definition night_transit : Transit :=
  example_transit 0 30 30 1 0 35 1 30 40 None.

(** A window whose end is written without an offset. *)
Definition half_naive_config : Config :=
  mkConfig float_0_015625 20 "18:00+00:00" "23:00".

(** A database that knows one object more than the example database. *)
Definition other_sample_number (name : string) : result Z :=
  if String.eqb name "KELT-4A b" then Ok 7 else example_sample_number name.

(** A request that answers with the length of the address. *)
Definition example_request (url : string) : result Z :=
  Ok (Z.of_nat (String.length url)).

(** * Properties *)

Lemma bind_Ok {A B : Type} (m : result A) (k : A -> result B) (b : B) :
  bind m k = Ok b -> exists a, m = Ok a /\ k a = Ok b.
Proof. destruct m as [a|e]; simpl; [eauto | discriminate]. Qed.

Ltac inv_bind H :=
  let a := fresh "a" in
  let Ha := fresh "H" a in
  apply bind_Ok in H; destruct H as (a & Ha & H).

(** ** The filters *)

(** C3. With the three elevations present, the meridian-flip filter
    discards a candidate exactly when the elevation at the center is
    strictly above the elevation at the begin and strictly above the
    elevation at the end; it keeps it otherwise. *)
Theorem filter_meridian_flip_discards_iff
    (transit : Transit) (be ce ee : Z) :
  elevation (begin transit) = Some be ->
  elevation (center transit) = Some ce ->
  elevation (end_ transit) = Some ee ->
  (filter_meridian_flip transit = Ok false <-> be < ce /\ ee < ce)
  /\ (filter_meridian_flip transit = Ok true <-> ~ (be < ce /\ ee < ce)).
Proof.
  intros Hb Hc He. unfold filter_meridian_flip.
  rewrite Hb, Hc, He. simpl.
  destruct (Z.ltb_spec be ce) as [Hbc|Hbc];
    destruct (Z.ltb_spec ee ce) as [Hec|Hec]; simpl;
    (split; split; intros H; try discriminate; try reflexivity;
     try lia; try (exfalso; apply H; lia)).
Qed.

(** C5. With the three elevations present, the elevation filter keeps a
    candidate exactly when its begin, center and end elevations all reach the
    configured threshold, and discards it otherwise; equality passes. *)
Theorem filter_elevation_keeps_iff
    (transit : Transit) (config : Config) (be ce ee : Z) :
  elevation (begin transit) = Some be ->
  elevation (center transit) = Some ce ->
  elevation (end_ transit) = Some ee ->
  let threshold := elevation_threshold config in
  (filter_elevation transit config = Ok true
   <-> threshold <= be /\ threshold <= ce /\ threshold <= ee)
  /\ (filter_elevation transit config = Ok false
      <-> be < threshold \/ ce < threshold \/ ee < threshold).
Proof.
  intros Hb Hc He threshold. unfold filter_elevation.
  fold threshold. rewrite Hb, Hc, He. simpl.
  destruct (Z.ltb_spec be threshold); simpl;
    [split; split; intros; try discriminate; try reflexivity; lia|].
  destruct (Z.ltb_spec ee threshold); simpl;
    [split; split; intros; try discriminate; try reflexivity; lia|].
  destruct (Z.ltb_spec ce threshold); simpl;
    split; split; intros; try discriminate; try reflexivity; lia.
Qed.

(** *** Floats *)

Lemma digits2_pos_bounds (m : positive) :
  2 ^ (Z.pos (digits2_pos m) - 1) <= Z.pos m < 2 ^ Z.pos (digits2_pos m).
Proof.
  induction m as [p IH|p IH|]; simpl digits2_pos.
  - rewrite Pos2Z.inj_succ, Z.pow_succ_r by lia.
    replace (Z.succ (Z.pos (digits2_pos p)) - 1)
      with (Z.succ (Z.pos (digits2_pos p) - 1)) by lia.
    rewrite Z.pow_succ_r by lia. lia.
  - rewrite Pos2Z.inj_succ, Z.pow_succ_r by lia.
    replace (Z.succ (Z.pos (digits2_pos p)) - 1)
      with (Z.succ (Z.pos (digits2_pos p) - 1)) by lia.
    rewrite Z.pow_succ_r by lia. lia.
  - simpl. lia.
Qed.

(** A canonical mantissa has at most 53 bits, and exactly 53 above the
    smallest exponent. *)
Lemma bounded_shape (m : positive) (e : Z) :
  bounded 53 1024 m e = true ->
  -1074 <= e /\ Z.pos m < 2 ^ 53 /\ (-1074 < e -> 2 ^ 52 <= Z.pos m).
Proof.
  unfold bounded, canonical_mantissa, fexp, emin. intros H.
  apply andb_true_iff in H. destruct H as [H _].
  apply Z.eqb_eq in H.
  pose proof (digits2_pos_bounds m) as [Hlo Hhi].
  assert (Hd : Z.pos (digits2_pos m) <= 53) by lia.
  split; [lia|]. split.
  - eapply Z.lt_le_trans; [exact Hhi|]. apply Z.pow_le_mono_r; lia.
  - intros He. assert (Z.pos (digits2_pos m) = 53) as E by lia.
    rewrite E in Hlo. exact Hlo.
Qed.

Lemma units_lt_of_exponent (m1 m2 : positive) (e1 e2 : Z) :
  bounded 53 1024 m1 e1 = true -> bounded 53 1024 m2 e2 = true ->
  e1 < e2 ->
  Z.pos m1 * 2 ^ (e1 + 1074) < Z.pos m2 * 2 ^ (e2 + 1074).
Proof.
  intros H1 H2 Hlt.
  apply bounded_shape in H1. destruct H1 as (Hmin1 & Hm1 & _).
  apply bounded_shape in H2. destruct H2 as (_ & _ & Hm2).
  specialize (Hm2 ltac:(lia)).
  assert (Hp : 0 < 2 ^ (e1 + 1074)) by (apply Z.pow_pos_nonneg; lia).
  assert (Hstep : 2 ^ (e1 + 1074 + 1) <= 2 ^ (e2 + 1074))
    by (apply Z.pow_le_mono_r; lia).
  rewrite Z.pow_add_r in Hstep by lia.
  change (2 ^ 53) with (2 ^ 52 * 2) in Hm1.
  change (2 ^ 1) with 2 in Hstep.
  nia.
Qed.

Lemma units_pos (m : positive) (e : Z) :
  bounded 53 1024 m e = true -> 0 < Z.pos m * 2 ^ (e + 1074).
Proof.
  intros H. apply bounded_shape in H.
  apply Z.mul_pos_pos; [lia|]. apply Z.pow_pos_nonneg; lia.
Qed.

(** On numbers, the comparison of two floats is the comparison of what they
    stand for. *)
Lemma float_ge_units (a b : spec_float) :
  finite64 a = true -> finite64 b = true ->
  float_ge a b = (float_units b <=? float_units a).
Proof.
  intros Ha Hb. unfold float_ge, SFleb.
  destruct a as [sa|sa| |sa ma ea]; try discriminate;
    destruct b as [sb|sb| |sb mb eb]; try discriminate;
    cbn [finite64 float_units SFcompare] in *.
  - reflexivity.
  - pose proof (units_pos _ _ Hb).
    destruct sb; symmetry; [apply Z.leb_le | apply Z.leb_gt]; lia.
  - pose proof (units_pos _ _ Ha).
    destruct sa; symmetry; [apply Z.leb_gt | apply Z.leb_le]; lia.
  - pose proof (units_pos _ _ Ha) as Pa. pose proof (units_pos _ _ Hb) as Pb.
    assert (Hcmp : forall x y,
               PosDef.Pos.compare_cont Eq x y = (Z.pos x ?= Z.pos y))
      by reflexivity.
    destruct sa, sb.
    + destruct (Z.compare_spec eb ea) as [E|L|G].
      * subst. rewrite Hcmp.
        destruct (Z.compare_spec (Z.pos mb) (Z.pos ma)); cbn [CompOpp];
          symmetry; [apply Z.leb_le | apply Z.leb_gt | apply Z.leb_le]; nia.
      * pose proof (units_lt_of_exponent _ _ _ _ Hb Ha L).
        symmetry; apply Z.leb_gt; lia.
      * pose proof (units_lt_of_exponent _ _ _ _ Ha Hb G).
        symmetry; apply Z.leb_le; lia.
    + symmetry; apply Z.leb_gt; nia.
    + symmetry; apply Z.leb_le; nia.
    + destruct (Z.compare_spec eb ea) as [E|L|G].
      * subst. rewrite Hcmp.
        destruct (Z.compare_spec (Z.pos mb) (Z.pos ma)); symmetry;
          [apply Z.leb_le | apply Z.leb_le | apply Z.leb_gt]; nia.
      * pose proof (units_lt_of_exponent _ _ _ _ Hb Ha L).
        symmetry; apply Z.leb_le; lia.
      * pose proof (units_lt_of_exponent _ _ _ _ Ha Hb G).
        symmetry; apply Z.leb_gt; lia.
Qed.

Lemma SFcompare_antisym (a b : spec_float) :
  SFcompare b a = option_map CompOpp (SFcompare a b).
Proof.
  destruct a as [sa|sa| |sa ma ea], b as [sb|sb| |sb mb eb];
    try reflexivity; try (destruct sa; reflexivity);
    try (destruct sb; reflexivity);
    try (destruct sa, sb; reflexivity).
  cbn [SFcompare option_map].
  assert (Hp : forall x y, PosDef.Pos.compare_cont Eq x y
                           = CompOpp (PosDef.Pos.compare_cont Eq y x)).
  { intros x y. change (Pos.compare x y = CompOpp (Pos.compare y x)).
    apply Pos.compare_antisym. }
  rewrite (Z.compare_antisym ea eb), (Hp mb ma).
  destruct sa, sb; try reflexivity;
    destruct (ea ?= eb); cbn [CompOpp]; try reflexivity;
    destruct (PosDef.Pos.compare_cont Eq ma mb); reflexivity.
Qed.

(** C9. The depth filter never fails; it keeps a candidate exactly when the
    comparison [mag_depth >= min_mag_depth] of the two floats holds, which for
    two numbers (neither infinite nor NaN) is exactly when the number of the
    depth is at least the number of the configured minimum. *)
Theorem filter_depth_keeps_iff (transit : Transit) (config : Config) :
  (filter_depth transit config = Ok true
   \/ filter_depth transit config = Ok false)
  /\ (filter_depth transit config = Ok true
      <-> SFcompare (mag_depth transit) (min_mag_depth config) = Some Eq
          \/ SFcompare (mag_depth transit) (min_mag_depth config) = Some Gt)
  /\ (finite64 (mag_depth transit) = true ->
      finite64 (min_mag_depth config) = true ->
      (filter_depth transit config = Ok true
       <-> float_units (min_mag_depth config)
           <= float_units (mag_depth transit))).
Proof.
  unfold filter_depth. split; [|split].
  - destruct (float_ge (mag_depth transit) (min_mag_depth config)); auto.
  - unfold float_ge, SFleb. rewrite SFcompare_antisym.
    destruct (SFcompare (mag_depth transit) (min_mag_depth config))
      as [[| |]|]; cbn [option_map CompOpp]; split;
      intros H; try discriminate; auto;
      destruct H as [H|H]; discriminate.
  - intros Hd Hm. rewrite (float_ge_units _ _ Hd Hm). split.
    + intros H. injection H as H. apply Z.leb_le. exact H.
    + intros H. apply Z.leb_le in H. rewrite H. reflexivity.
Qed.

(** *** Times of day *)

Ltac split_andb :=
  repeat match goal with
         | H : _ && _ = true |- _ => apply andb_true_iff in H; destruct H
         | H : (_ <=? _) = true |- _ => apply Z.leb_le in H
         end.

(** Two aware times of day compare as the instants they denote. *)
Lemma daytime_compare_aware (a b : daytime) (oa ob : Z) :
  valid_daytime a = true -> valid_daytime b = true ->
  utcoffset a = Some oa -> utcoffset b = Some ob ->
  daytime_compare a b = Ok (utc_microsecond a oa ?= utc_microsecond b ob).
Proof.
  unfold valid_daytime, valid_clock, daytime_compare, base_compare,
    utc_microsecond, seconds_of_day.
  intros Ha Hb -> ->. split_andb.
  destruct (Z.eqb_spec oa ob) as [->|Hne].
  - destruct (Z.compare_spec (dt_hour a) (dt_hour b));
      [destruct (Z.compare_spec (dt_minute a) (dt_minute b));
       [destruct (Z.compare_spec (dt_second a) (dt_second b));
        [destruct (Z.compare_spec (dt_microsecond a) (dt_microsecond b))|..]
       |..]|..];
      symmetry; f_equal;
      first [apply Z.compare_eq_iff; lia
            |apply Z.compare_lt_iff; lia
            |apply Z.compare_gt_iff; lia].
  - destruct (Z.compare_spec
                (dt_hour a * 3600 + dt_minute a * 60 + dt_second a - oa)
                (dt_hour b * 3600 + dt_minute b * 60 + dt_second b - ob));
      [destruct (Z.compare_spec (dt_microsecond a) (dt_microsecond b))|..];
      symmetry; f_equal;
      first [apply Z.compare_eq_iff; lia
            |apply Z.compare_lt_iff; lia
            |apply Z.compare_gt_iff; lia].
Qed.

Lemma valid_daytime_timetz (d : datetime) :
  valid_clock (hour d) (minute d) = true -> valid_daytime (timetz d) = true.
Proof.
  intros H. unfold valid_daytime, timetz. cbn. rewrite H. reflexivity.
Qed.

Lemma utc_microsecond_timetz (d : datetime) :
  utc_microsecond (timetz d) 0 = clock_microsecond d.
Proof. unfold utc_microsecond, clock_microsecond, seconds_of_day. cbn. lia. Qed.

(** A configured time without an offset cannot be ordered against the time
    of a transit: the filter raises [TypeError]. *)
Lemma filter_time_naive_min `{L : Library} (transit : Transit) (config : Config)
    (b e : datetime) (t_min t_max : daytime) :
  time (begin transit) = Some b -> time (end_ transit) = Some e ->
  fromisoformat (min_start_time config) = Ok t_min ->
  fromisoformat (max_end_time config) = Ok t_max ->
  utcoffset t_min = None ->
  filter_time transit config = Raise TypeError.
Proof.
  intros Hb He Hmin Hmax Hnaive. unfold filter_time.
  rewrite Hmin, Hmax, Hb, He. cbn [bind getitem].
  unfold daytime_ge, daytime_compare. rewrite Hnaive. reflexivity.
Qed.

(** C4 (as amended). With the begin and end times present and the two
    configured times carrying a UTC offset, the time-window filter keeps a
    candidate exactly when the clock of its begin is at or after the
    configured minimum and the clock of its end is at or before the
    configured maximum, as instants of the day; the calendar date of the
    candidate plays no part and both bounds are inclusive. *)
Theorem filter_time_keeps_iff `{L : Library}
    (transit : Transit) (config : Config) (b e : datetime)
    (t_min t_max : daytime) (o_min o_max : Z) :
  time (begin transit) = Some b ->
  time (end_ transit) = Some e ->
  valid_clock (hour b) (minute b) = true ->
  valid_clock (hour e) (minute e) = true ->
  fromisoformat (min_start_time config) = Ok t_min ->
  fromisoformat (max_end_time config) = Ok t_max ->
  valid_daytime t_min = true ->
  valid_daytime t_max = true ->
  utcoffset t_min = Some o_min ->
  utcoffset t_max = Some o_max ->
  (filter_time transit config = Ok true
   \/ filter_time transit config = Ok false)
  /\ (filter_time transit config = Ok true
      <-> utc_microsecond t_min o_min <= clock_microsecond b
          /\ clock_microsecond e <= utc_microsecond t_max o_max).
Proof.
  intros Hb He Vb Ve Hmin Hmax Vmin Vmax Omin Omax.
  unfold filter_time. rewrite Hmin, Hmax, Hb, He. cbn [bind getitem].
  unfold daytime_ge, daytime_le.
  rewrite (daytime_compare_aware (timetz b) t_min 0 o_min
             (valid_daytime_timetz b Vb) Vmin eq_refl Omin).
  rewrite (daytime_compare_aware (timetz e) t_max 0 o_max
             (valid_daytime_timetz e Ve) Vmax eq_refl Omax).
  rewrite !utc_microsecond_timetz. cbn [bind].
  destruct (Z.compare_spec (clock_microsecond b) (utc_microsecond t_min o_min));
    cbn [bind];
    destruct (Z.compare_spec (clock_microsecond e)
                             (utc_microsecond t_max o_max));
    (split; [auto | split; intros H'; try discriminate; try reflexivity;
                    lia]).
Qed.

(** ** The two patterns *)

Lemma attempts_Seq (r1 r2 : regex) (s : string) :
  attempts (Seq r1 r2) s =
  flat_map (fun a1 : attempt =>
              let '(w1, g1, s1) := a1 in map (then_ w1 g1) (attempts r2 s1))
           (attempts r1 s).
Proof. reflexivity. Qed.

Lemma attempts_Group (r : regex) (s : string) :
  attempts (Group r) s =
  map (fun a : attempt => let '(w, g, s') := a in (w, w :: g, s'))
      (attempts r s).
Proof. reflexivity. Qed.

Lemma seq_single r1 r2 s w1 g1 s1 w2 g2 s2 :
  attempts r1 s = [(w1, g1, s1)] -> attempts r2 s1 = [(w2, g2, s2)] ->
  attempts (Seq r1 r2) s = [(w1 ++ w2, (g1 ++ g2)%list, s2)].
Proof.
  intros H1 H2. rewrite attempts_Seq, H1. cbn [flat_map].
  rewrite H2. reflexivity.
Qed.

(** The matcher backtracks to the second way [r1] matches only when [r2]
    fails after the first. *)
Lemma seq_first r1 r2 s w1 g1 s1 w1' g1' s1' w2 g2 s2 :
  attempts r1 s = [(w1, g1, s1); (w1', g1', s1')] ->
  attempts r2 s1 = [(w2, g2, s2)] -> attempts r2 s1' = [] ->
  attempts (Seq r1 r2) s = [(w1 ++ w2, (g1 ++ g2)%list, s2)].
Proof.
  intros H1 H2 H3. rewrite attempts_Seq, H1. cbn [flat_map].
  rewrite H2, H3. reflexivity.
Qed.

Lemma seq_none r1 r2 s : attempts r1 s = [] -> attempts (Seq r1 r2) s = [].
Proof. intros H. rewrite attempts_Seq, H. reflexivity. Qed.

Lemma group_single r s w g s' :
  attempts r s = [(w, g, s')] -> attempts (Group r) s = [(w, w :: g, s')].
Proof. intros H. rewrite attempts_Group, H. reflexivity. Qed.

(** A literal that does not start with a digit does not match a digit. *)
Lemma lit_digit (l c : ascii) (s r : string) :
  is_digit l = false -> is_digit c = true ->
  attempts (Lit (String l r)) (String c s) = [].
Proof.
  intros Hl Hc. cbn [attempts strip_prefix].
  destruct (Ascii.eqb_spec l c) as [->|]; [congruence | reflexivity].
Qed.

Lemma degree_digit c s :
  is_digit c = true -> attempts (Lit degree) (String c s) = [].
Proof. intros H. exact (lit_digit "194" c s _ eq_refl H). Qed.

Lemma colon_digit c s :
  is_digit c = true -> attempts (Lit ":") (String c s) = [].
Proof. intros H. exact (lit_digit ":" c s "" eq_refl H). Qed.

Lemma opt_minus_digit c s :
  is_digit c = true ->
  attempts (Opt (Lit "-")) (String c s) = [("", [], String c s)].
Proof.
  intros H. pose proof (lit_digit "-" c s "" eq_refl H) as E.
  cbn [attempts] in *. rewrite E. reflexivity.
Qed.

Lemma two_digits a b s :
  is_digit a = true -> is_digit b = true ->
  attempts digits_2 (String a (String b s))
  = [(String a (String b ""), [], s)].
Proof.
  intros Ha Hb. unfold digits_2. cbn -[is_digit]. rewrite Ha.
  cbn -[is_digit]. rewrite Hb. reflexivity.
Qed.

(** [{1,2}] is greedy: two digits are tried before one. *)
Lemma one_or_two_digits_2 a b s :
  is_digit a = true -> is_digit b = true ->
  attempts digits_1_2 (String a (String b s))
  = [(String a (String b ""), [], s); (String a "", [], String b s)].
Proof.
  intros Ha Hb. unfold digits_1_2. cbn -[is_digit]. rewrite Ha.
  cbn -[is_digit]. rewrite Hb. reflexivity.
Qed.

Lemma one_or_two_digits_1 a s :
  is_digit a = true -> attempts Digit s = [] ->
  attempts digits_1_2 (String a s) = [(String a "", [], s)].
Proof.
  intros Ha Hs. unfold digits_1_2. cbn -[is_digit]. rewrite Ha.
  cbn -[is_digit]. cbn [attempts] in Hs. rewrite Hs. reflexivity.
Qed.

Lemma one_digit_degree a rest :
  is_digit a = true ->
  attempts digits_1_2 (String a (degree ++ rest))
  = [(String a "", [], degree ++ rest)].
Proof. intros Ha. apply one_or_two_digits_1; [exact Ha | reflexivity]. Qed.

Lemma digits_between_1_2 s :
  digits_between 1 2 s = true ->
  (exists a, s = String a "" /\ is_digit a = true)
  \/ (exists a b, s = String a (String b "")
                  /\ is_digit a = true /\ is_digit b = true).
Proof.
  unfold digits_between. intros H.
  destruct s as [|a [|b [|c s]]]; cbn in H; try discriminate.
  - left. exists a. rewrite !andb_true_r in H. auto.
  - right. exists a, b. rewrite !andb_true_r in H.
    apply andb_true_iff in H. intuition.
  - rewrite !andb_false_r in H. discriminate.
Qed.

Lemma digits_between_2_2 s :
  digits_between 2 2 s = true ->
  exists a b, s = String a (String b "")
              /\ is_digit a = true /\ is_digit b = true.
Proof.
  unfold digits_between. intros H.
  destruct s as [|a [|b [|c s]]]; cbn in H; try discriminate.
  - rewrite ?andb_true_r, ?andb_false_r in H. discriminate.
  - exists a, b. rewrite !andb_true_r in H.
    apply andb_true_iff in H. intuition.
  - rewrite !andb_false_r in H. discriminate.
Qed.

Ltac run := cbn -[attempts is_digit degree].

(** The signed elevation and the degree sign after it. *)
Lemma elevation_then_degree sign e rest :
  sign = "" \/ sign = "-" -> digits_between 1 2 e = true ->
  attempts (Seq (Group elevation_re) (Lit degree))
           (sign ++ e ++ degree ++ rest)
  = [(sign ++ e ++ degree, [sign ++ e], rest)].
Proof.
  intros Hs He. unfold elevation_re.
  rewrite attempts_Seq, attempts_Group, attempts_Seq.
  destruct (digits_between_1_2 e He) as [(a & -> & Ha)|(a & b & -> & Ha & Hb)];
    destruct Hs as [->| ->]; run.
  - rewrite (opt_minus_digit a _ Ha). run.
    rewrite (one_digit_degree a _ Ha). run. reflexivity.
  - change (attempts (Opt (Lit "-")) (String "-" (String a (degree ++ rest))))
      with [("-", @nil string, String a (degree ++ rest));
            ("", [], String "-" (String a (degree ++ rest)))].
    run. rewrite (one_digit_degree a _ Ha). run. reflexivity.
  - rewrite (opt_minus_digit a _ Ha). run.
    rewrite (one_or_two_digits_2 a b _ Ha Hb). run.
    rewrite (degree_digit b _ Hb). reflexivity.
  - change (attempts (Opt (Lit "-")) (String "-" ?s))
      with [("-", @nil string, String a (String b (degree ++ rest)));
            ("", [], String "-" (String a (String b (degree ++ rest))))].
    run. rewrite (one_or_two_digits_2 a b _ Ha Hb). run.
    rewrite (degree_digit b _ Hb). reflexivity.
Qed.

(** The text from the colon on. *)
Lemma colon_minute_elevation m sign e rest :
  digits_between 2 2 m = true ->
  sign = "" \/ sign = "-" -> digits_between 1 2 e = true ->
  attempts (Seq (Lit ":")
              (Seq (Group digits_2) (Seq (Group elevation_re) (Lit degree))))
           (":" ++ m ++ sign ++ e ++ degree ++ rest)
  = [(":" ++ m ++ sign ++ e ++ degree, [m; sign ++ e], rest)].
Proof.
  intros Hm Hs He.
  destruct (digits_between_2_2 m Hm) as (a & b & -> & Ha & Hb).
  pose proof (elevation_then_degree sign e rest Hs He) as Htail.
  eapply eq_trans.
  - eapply seq_single; [reflexivity|].
    eapply seq_single; [|exact Htail].
    apply group_single. apply (two_digits a b _ Ha Hb).
  - reflexivity.
Qed.

(** A text of the begin/end shape matches in exactly one way. *)
Lemma begin_end_attempts h m sign e rest :
  digits_between 1 2 h = true -> digits_between 2 2 m = true ->
  sign = "" \/ sign = "-" -> digits_between 1 2 e = true ->
  attempts begin_end_re (h ++ ":" ++ m ++ sign ++ e ++ degree ++ rest)
  = [(h ++ ":" ++ m ++ sign ++ e ++ degree, [h; m; sign ++ e], rest)].
Proof.
  intros Hh Hm Hs He.
  pose proof (colon_minute_elevation m sign e rest Hm Hs He) as Htail.
  unfold begin_end_re.
  destruct (digits_between_1_2 h Hh) as [(a & -> & Ha)|(a & b & -> & Ha & Hb)].
  - eapply eq_trans.
    + eapply seq_single; [|exact Htail].
      apply group_single. apply one_or_two_digits_1; [exact Ha|reflexivity].
    + reflexivity.
  - eapply eq_trans.
    + eapply seq_first; [| exact Htail |].
      * rewrite attempts_Group. cbn [String.append].
        rewrite (one_or_two_digits_2 a b _ Ha Hb). reflexivity.
      * apply seq_none. apply colon_digit. exact Hb.
    + reflexivity.
Qed.

Lemma center_attempts d mo s w g rest :
  digits_between 2 2 d = true -> digits_between 2 2 mo = true ->
  attempts begin_end_re s = [(w, g, rest)] ->
  attempts center_re (d ++ "." ++ mo ++ ". " ++ s)
  = [(d ++ "." ++ mo ++ ". " ++ w, d :: mo :: g, rest)].
Proof.
  intros Hd Hm Hs.
  destruct (digits_between_2_2 d Hd) as (a & b & -> & Ha & Hb).
  destruct (digits_between_2_2 mo Hm) as (a' & b' & -> & Ha' & Hb').
  unfold center_re. eapply eq_trans.
  - eapply seq_single; [apply group_single; apply (two_digits a b _ Ha Hb)|].
    eapply seq_single; [reflexivity|].
    eapply seq_single;
      [apply group_single; apply (two_digits a' b' _ Ha' Hb')|].
    eapply seq_single; [reflexivity|]. exact Hs.
  - reflexivity.
Qed.

Lemma digits_value_decimal (s : string) (acc : Z) :
  all_digits s = true -> digits_value acc s = Ok (decimal_from acc s).
Proof.
  revert acc. induction s as [|c s IH]; intros acc H; cbn in *.
  - reflexivity.
  - apply andb_true_iff in H. destruct H as [Hc Hs].
    rewrite Hc. apply IH. exact Hs.
Qed.

Lemma digit_not_minus (c : ascii) :
  is_digit c = true -> Ascii.eqb c "-" = false.
Proof.
  intros H.
  destruct (Ascii.eqb_spec c "-") as [->|]; [discriminate|reflexivity].
Qed.

(** [int] of one or more digits. *)
Lemma int_digits (lo hi : nat) (s : string) :
  (1 <= lo)%nat -> digits_between lo hi s = true -> int s = Ok (decimal s).
Proof.
  unfold digits_between. intros Hlo H.
  apply andb_true_iff in H. destruct H as [H _].
  apply andb_true_iff in H. destruct H as [Hd Hlen].
  apply Nat.leb_le in Hlen.
  destruct s as [|c s]; [cbn in Hlen; lia|].
  pose proof Hd as Hd'. cbn in Hd'. apply andb_true_iff in Hd'.
  destruct Hd' as [Hc _].
  unfold int. rewrite (digit_not_minus c Hc).
  apply digits_value_decimal. exact Hd.
Qed.

(** [int] of an optional minus sign and one or more digits. *)
Lemma int_signed (lo hi : nat) (sign e : string) :
  (1 <= lo)%nat -> sign = "" \/ sign = "-" ->
  digits_between lo hi e = true ->
  int (sign ++ e) = Ok (signed sign (decimal e)).
Proof.
  intros Hlo [->| ->] He.
  - exact (int_digits lo hi e Hlo He).
  - unfold digits_between in He.
    apply andb_true_iff in He. destruct He as [He _].
    apply andb_true_iff in He. destruct He as [Hd Hlen].
    apply Nat.leb_le in Hlen.
    destruct e as [|c e]; [cbn in Hlen; lia|].
    cbn [String.append int Ascii.eqb Bool.eqb signed String.eqb].
    rewrite (digits_value_decimal _ 0 Hd). reflexivity.
Qed.

(** C7. A text made of one or two digits, a colon, two digits, an optional
    minus sign, one or two digits and the degree sign, whatever follows, is
    split by the widths of its fields alone: the first group is the hour, the
    two digits after the colon are the minute, and the sign and digits
    right after them are the elevation.  [extractStartEndTimes] stores
    exactly these numbers, and the center pattern reads the same three
    fields after its day and month. *)
Theorem extractStartEndTimes_fixed_widths
    (year month day : Z) (transit : Transit) (key : dict_key)
    (h m sign e rest : string) :
  digits_between 1 2 h = true ->
  digits_between 2 2 m = true ->
  sign = "" \/ sign = "-" ->
  digits_between 1 2 e = true ->
  let text := h ++ ":" ++ m ++ sign ++ e ++ degree ++ rest in
  re_search begin_end_re text = Some [h; m; sign ++ e]
  /\ extractStartEndTimes year month day transit text key
     = (let* t := make_datetime year month day (decimal h) (decimal m) in
        Ok (set_moment transit key
              (mkMoment (Some t) (Some (signed sign (decimal e))))))
  /\ (forall d mo : string,
         digits_between 2 2 d = true -> digits_between 2 2 mo = true ->
         re_search center_re (d ++ "." ++ mo ++ ". " ++ text)
         = Some [d; mo; h; m; sign ++ e]).
Proof.
  intros Hh Hm Hs He text.
  pose proof (begin_end_attempts h m sign e rest Hh Hm Hs He) as Hat.
  fold text in Hat.
  assert (Hre : re_search begin_end_re text = Some [h; m; sign ++ e])
    by (unfold re_search; rewrite Hat; reflexivity).
  split; [exact Hre|]. split.
  - unfold extractStartEndTimes. rewrite Hre.
    rewrite (int_digits 1 2 h (le_n 1) Hh).
    rewrite (int_digits 2 2 m (le_S _ _ (le_n 1)) Hm).
    rewrite (int_signed 1 2 sign e (le_n 1) Hs He).
    reflexivity.
  - intros d mo Hd Hmo. unfold re_search.
    rewrite (center_attempts d mo text _ _ _ Hd Hmo Hat). reflexivity.
Qed.

(** ** Reading a row *)

Lemma make_datetime_Ok (y m d h mi : Z) (t : datetime) :
  make_datetime y m d h mi = Ok t -> on_date y m d t.
Proof.
  unfold make_datetime, on_date.
  destruct (valid_date y m d) eqn:Hd; [|discriminate].
  destruct (valid_clock h mi) eqn:Hc; [|discriminate].
  cbn [andb]. intros [= <-]. cbn. auto.
Qed.

Lemma extractStartEndTimes_inv (y m d : Z) (transit transit' : Transit)
    (text : string) (key : dict_key) :
  extractStartEndTimes y m d transit text key = Ok transit' ->
  transit' = transit
  \/ exists t el, on_date y m d t
                  /\ transit' = set_moment transit key
                                  (mkMoment (Some t) (Some el)).
Proof.
  unfold extractStartEndTimes. intros H.
  destruct (re_search begin_end_re text) as [[|g0 [|g1 [|g2 [|g3 gs]]]]|];
    try (left; congruence).
  inv_bind H. inv_bind H. inv_bind H. inv_bind H.
  injection H as <-. right. eexists _, _. split; [|reflexivity].
  eapply make_datetime_Ok. eassumption.
Qed.

Lemma read_row_inv `{L : Library} (y : Z) (tr : Row) (transit : Transit) :
  read_row y tr = Ok (Appended transit) ->
  exists m d c ce,
    a_string tr = Some (object transit)
    /\ n_samples transit = None
    /\ center transit = mkMoment (Some c) (Some ce)
    /\ on_date y m d c
    /\ read_moment y m d (begin transit)
    /\ read_moment y m d (end_ transit).
Proof.
  unfold read_row. intros H.
  destruct (a_string tr) as [name|]; [|discriminate].
  inv_bind H. inv_bind H. inv_bind H.
  destruct (re_search center_re a1)
    as [[|g0 [|g1 [|g2 [|g3 [|g4 [|g5 gs]]]]]]|]; try discriminate.
  inv_bind H. inv_bind H. inv_bind H. inv_bind H. inv_bind H. inv_bind H.
  inv_bind H. inv_bind H. inv_bind H. inv_bind H.
  injection H as <-.
  apply make_datetime_Ok in Ha7.
  exists a3, a2, a7, a6.
  apply extractStartEndTimes_inv in Ha9, Ha11.
  destruct Ha9 as [->|(tb & eb & Hb & ->)];
    destruct Ha11 as [->|(te & ee & He & ->)]; cbn;
    repeat split; auto; try (left; reflexivity);
    try (right; eexists _, _; split; [reflexivity|assumption]);
    try apply Ha7.
Qed.

Lemma datetime_ltb_same_date (a b : datetime) :
  year a = year b -> month a = month b -> day a = day b ->
  valid_clock (hour a) (minute a) = true ->
  valid_clock (hour b) (minute b) = true ->
  (datetime_ltb a b = true <-> clock_minutes a < clock_minutes b).
Proof.
  unfold datetime_ltb, clock_minutes, valid_clock.
  intros -> -> -> Ha Hb. split_andb. rewrite !Z.compare_refl.
  destruct (Z.compare_spec (hour a) (hour b)).
  - rewrite Z.ltb_lt. lia.
  - split; [lia|reflexivity].
  - split; [discriminate|lia].
Qed.

Lemma re_search_field (f : clock_text) :
  clock_shape f ->
  re_search begin_end_re (field_text f)
  = Some [hour_digits f; minute_digits f;
          elevation_sign f ++ elevation_digits f].
Proof.
  intros (Hh & Hm & Hs & He & _). unfold re_search, field_text.
  rewrite (begin_end_attempts _ _ _ _ (remainder f) Hh Hm Hs He).
  reflexivity.
Qed.

(** A field of the expected shape is stored as the moment it writes. *)
Lemma extractStartEndTimes_field (y m d : Z) (transit : Transit)
    (f : clock_text) (key : dict_key) :
  clock_shape f -> valid_date y m d = true ->
  extractStartEndTimes y m d transit (field_text f) key
  = Ok (set_moment transit key (field_moment y m d f)).
Proof.
  intros Hf Hd. unfold extractStartEndTimes.
  rewrite (re_search_field f Hf).
  destruct Hf as (Hh & Hm & Hs & He & Hc).
  rewrite (int_digits 1 2 _ (le_n 1) Hh).
  rewrite (int_digits 2 2 _ (le_S _ _ (le_n 1)) Hm).
  rewrite (int_signed 1 2 _ _ (le_n 1) Hs He).
  cbn [bind]. unfold make_datetime. rewrite Hd, Hc. reflexivity.
Qed.

(** A row of the expected shape is read into the candidate its fields
    write, all three moments on the date of the center field. *)
Lemma read_row_shaped `{L : Library} (y : Z)
    (name c0 c4 c5 depth_text d mo : string) (more : list string)
    (depth : spec_float) (fb fc fe : clock_text) :
  float depth_text = Ok depth ->
  digits_between 2 2 d = true ->
  digits_between 2 2 mo = true ->
  valid_date y (decimal mo) (decimal d) = true ->
  clock_shape fb -> clock_shape fc -> clock_shape fe ->
  read_row y (mkRow (Some name)
                (c0 :: field_text fb
                    :: (d ++ "." ++ mo ++ ". " ++ field_text fc)
                    :: field_text fe :: c4 :: c5 :: depth_text :: more))
  = Ok (Appended
          (mkTransit name depth None
             (field_moment y (decimal mo) (decimal d) fb)
             (field_moment y (decimal mo) (decimal d) fc)
             (field_moment y (decimal mo) (decimal d) fe))).
Proof.
  intros Hfloat Hd Hmo Hdate Hb Hc He.
  assert (Hre : re_search center_re
                  (d ++ "." ++ mo ++ ". " ++ field_text fc)
                = Some [d; mo; hour_digits fc; minute_digits fc;
                        elevation_sign fc ++ elevation_digits fc]).
  { destruct Hc as (Hh & Hm & Hs & Hel & _). unfold re_search, field_text.
    rewrite (center_attempts d mo _ _ _ _ Hd Hmo
               (begin_end_attempts _ _ _ _ (remainder fc) Hh Hm Hs Hel)).
    reflexivity. }
  destruct Hc as (Hh & Hm & Hs & Hel & Hclock).
  unfold read_row. cbn [a_string tds index nth_error bind].
  rewrite Hfloat. cbn [bind]. rewrite Hre.
  rewrite (int_digits 2 2 _ (le_S _ _ (le_n 1)) Hd).
  rewrite (int_digits 2 2 _ (le_S _ _ (le_n 1)) Hmo).
  rewrite (int_digits 1 2 _ (le_n 1) Hh).
  rewrite (int_digits 2 2 _ (le_S _ _ (le_n 1)) Hm).
  rewrite (int_signed 1 2 _ _ (le_n 1) Hs Hel).
  cbn [bind]. unfold make_datetime at 1. rewrite Hdate, Hclock.
  cbn [andb bind].
  rewrite (extractStartEndTimes_field _ _ _ _ fb Kbegin Hb Hdate).
  cbn [bind].
  rewrite (extractStartEndTimes_field _ _ _ _ fe Kend He Hdate).
  reflexivity.
Qed.

(** C1 (as amended). The reading of a row compares no times: a row whose
    fields have the expected shape is read into a candidate whatever the
    order of its three clock times.  The times of any candidate the reading
    emits all lie on one calendar date, the day and month of the center field
    in the year of the run; so its begin is before its center, and its
    center before its end, exactly when their clock times are in that
    order. *)
Theorem read_row_same_date_any_order `{L : Library} (y : Z) :
  (forall (name c0 c4 c5 depth_text d mo : string) (more : list string)
          (depth : spec_float) (fb fc fe : clock_text),
      float depth_text = Ok depth ->
      digits_between 2 2 d = true ->
      digits_between 2 2 mo = true ->
      valid_date y (decimal mo) (decimal d) = true ->
      clock_shape fb -> clock_shape fc -> clock_shape fe ->
      read_row y (mkRow (Some name)
                    (c0 :: field_text fb
                        :: (d ++ "." ++ mo ++ ". " ++ field_text fc)
                        :: field_text fe :: c4 :: c5 :: depth_text :: more))
      = Ok (Appended
              (mkTransit name depth None
                 (field_moment y (decimal mo) (decimal d) fb)
                 (field_moment y (decimal mo) (decimal d) fc)
                 (field_moment y (decimal mo) (decimal d) fe))))
  /\ (forall (tr : Row) (transit : Transit) (b c e : datetime),
         read_row y tr = Ok (Appended transit) ->
         time (begin transit) = Some b ->
         time (center transit) = Some c ->
         time (end_ transit) = Some e ->
         (year b = y /\ year c = y /\ year e = y)
         /\ (month b = month c /\ month e = month c)
         /\ (day b = day c /\ day e = day c)
         /\ (chronological transit
             <-> clock_minutes b < clock_minutes c
                 /\ clock_minutes c < clock_minutes e)).
Proof.
  split; [intros; apply read_row_shaped; assumption|].
  intros tr transit b c e Hrow Hb Hc He.
  destruct (read_row_inv y tr transit Hrow)
    as (m & d & c' & ce & _ & _ & Hcenter & Hdc & Hbegin & Hend).
  rewrite Hcenter in Hc. injection Hc as ->.
  destruct Hbegin as [Hbegin|(tb & eb & Hbegin & Hdb)];
    rewrite Hbegin in Hb; [discriminate|]. injection Hb as ->.
  destruct Hend as [Hend|(te & ee & Hend & Hde)];
    rewrite Hend in He; [discriminate|]. injection He as ->.
  destruct Hdb as (Yb & Mb & Db & _ & Cb).
  destruct Hdc as (Yc & Mc & Dc & _ & Cc).
  destruct Hde as (Ye & Me & De & _ & Ce).
  split; [repeat split; congruence|].
  split; [split; congruence|].
  split; [split; congruence|].
  assert (Hbc : datetime_ltb b c = true
                <-> clock_minutes b < clock_minutes c)
    by (apply datetime_ltb_same_date; congruence).
  assert (Hce : datetime_ltb c e = true
                <-> clock_minutes c < clock_minutes e)
    by (apply datetime_ltb_same_date; congruence).
  unfold chronological. rewrite Hbegin, Hcenter, Hend. cbn [time]. split.
  - intros (b' & c' & e' & [= <-] & [= <-] & [= <-] & H1 & H2).
    split; [apply Hbc | apply Hce]; assumption.
  - intros [H1 H2]. exists b, c, e.
    repeat split; [apply Hbc | apply Hce]; assumption.
Qed.

(** ** The store *)

Lemma freshly_read_empty : freshly_read ∅ [].
Proof.
  split; [constructor|]. split.
  - intros l Hl. inversion Hl.
  - intros l transit Hl. rewrite lookup_empty in Hl. discriminate.
Qed.

Lemma read_rows_freshly_read `{L : Library} (y : Z) (rows : list Row) :
  forall (h : heap) (transits : list nat) (h' : heap) (transits' : list nat),
    freshly_read h transits ->
    read_rows y rows h transits = Ok (Read h' transits') ->
    freshly_read h' transits'.
Proof.
  induction rows as [|tr rows IH]; intros h ts h' ts' Hinv H; cbn in H.
  - injection H as <- <-. exact Hinv.
  - inv_bind H. destruct a as [| |transit]; [eauto|discriminate|].
    apply IH in H; [exact H|]. clear IH H.
    destruct Hinv as (Hnd & Hlive & Hnone).
    assert (Hfresh : h !! fresh (dom h) = None).
    { apply not_elem_of_dom. apply is_fresh. }
    split; [|split].
    + apply NoDup_app. split; [exact Hnd|]. split; [|apply NoDup_singleton].
      intros l Hl Hl'. apply list_elem_of_singleton in Hl'. subst l.
      apply Hlive in Hl. rewrite Hfresh in Hl. destruct Hl; discriminate.
    + intros l Hl. apply elem_of_app in Hl. destruct Hl as [Hl|Hl].
      * destruct (decide (fresh (dom h) = l)) as [->|Hne].
        -- rewrite lookup_insert_eq. eauto.
        -- rewrite lookup_insert_ne by exact Hne. auto.
      * apply list_elem_of_singleton in Hl. subst l.
        rewrite lookup_insert_eq. eauto.
    + intros l t Hl.
      destruct (decide (fresh (dom h) = l)) as [<-|Hne].
      * rewrite lookup_insert_eq in Hl. injection Hl as <-.
        apply read_row_inv in Ha. destruct Ha as (? & ? & ? & ? & _ & Hn & _).
        exact Hn.
      * rewrite lookup_insert_ne in Hl by exact Hne. eauto.
Qed.

Lemma select_sublist (keep : Transit -> result bool) (h : heap) :
  forall transits survivors,
    select keep h transits = Ok survivors -> sublist survivors transits.
Proof.
  induction transits as [|l ts IH]; intros survivors H; cbn in H.
  - injection H as <-. constructor.
  - inv_bind H. inv_bind H. inv_bind H. injection H as <-.
    destruct a0; [apply sublist_skip | apply sublist_cons]; auto.
Qed.

(** A reference survives exactly when the predicate keeps its transit. *)
Lemma select_elem (keep : Transit -> result bool) (h : heap) :
  forall transits survivors,
    select keep h transits = Ok survivors ->
    forall l, l ∈ survivors <->
              l ∈ transits
              /\ exists transit, h !! l = Some transit
                                 /\ keep transit = Ok true.
Proof.
  induction transits as [|l0 ts IH]; intros survivors H l; cbn in H.
  - injection H as <-. split; [intros Hl; inversion Hl|intros [Hl _]; exact Hl].
  - inv_bind H. inv_bind H. inv_bind H. injection H as <-.
    unfold deref in Ha. destruct (h !! l0) as [t0|] eqn:Hl0; [|discriminate].
    injection Ha as ->. specialize (IH _ Ha1 l).
    destruct a0.
    + rewrite !elem_of_cons, IH. split.
      * intros [->|[Hl Hk]]; [split; [auto|eauto]|split; [auto|exact Hk]].
      * intros [[->|Hl] Hk]; [auto|right; auto].
    + rewrite elem_of_cons, IH. split.
      * intros [Hl Hk]. auto.
      * intros [[->|Hl] Hk]; [|auto].
        destruct Hk as (t & Ht & Hk). congruence.
Qed.

Lemma enrich_frame `{L : Library} :
  forall (transits : list nat) (h h' : heap),
    NoDup transits ->
    enrich h transits = Ok h' ->
    (forall l, l ∉ transits -> h' !! l = h !! l)
    /\ (forall l, l ∈ transits ->
          exists transit n,
            h !! l = Some transit
            /\ get_database_sample_number (object transit) = Ok n
            /\ h' !! l = Some (set_n_samples n transit)).
Proof.
  induction transits as [|l0 ts IH]; intros h h' Hnd H; cbn in H.
  - injection H as <-. split; [reflexivity|]. intros l Hl. inversion Hl.
  - inv_bind H. inv_bind H.
    unfold deref in Ha. destruct (h !! l0) as [t0|] eqn:Hl0; [|discriminate].
    injection Ha as ->.
    apply NoDup_cons in Hnd. destruct Hnd as [Hnotin Hnd].
    destruct (IH _ _ Hnd H) as [Hout Hin]. split.
    + intros l Hl. apply not_elem_of_cons in Hl. destruct Hl as [Hne Hl].
      rewrite (Hout l Hl). apply lookup_insert_ne. congruence.
    + intros l Hl. apply elem_of_cons in Hl. destruct Hl as [->|Hl].
      * exists a, a0. rewrite (Hout l0 Hnotin), lookup_insert_eq. auto.
      * destruct (Hin l Hl) as (t & n & Ht & Hn & Ht').
        exists t, n. rewrite lookup_insert_ne in Ht; [auto|].
        intros ->. contradiction.
Qed.

(** ** The sort *)

Lemma insert_by_key_perm (x : Z * nat) (l : list (Z * nat)) :
  Permutation (x :: l) (insert_by_key x l).
Proof.
  induction l as [|y l IH]; cbn.
  - reflexivity.
  - destruct (fst x <=? fst y); [reflexivity|].
    rewrite perm_swap. apply perm_skip. exact IH.
Qed.

Lemma sort_by_key_perm (l : list (Z * nat)) : Permutation l (sort_by_key l).
Proof.
  induction l as [|x l IH]; cbn; [reflexivity|].
  rewrite <- insert_by_key_perm. apply perm_skip. exact IH.
Qed.

Lemma insert_by_key_sorted (x : Z * nat) (l : list (Z * nat)) :
  Sorted key_le l -> Sorted key_le (insert_by_key x l).
Proof.
  induction 1 as [|y l Hs IH Hhd]; cbn.
  - repeat constructor.
  - destruct (Z.leb_spec (fst x) (fst y)) as [Hle|Hgt].
    + constructor; [constructor; assumption|]. constructor. exact Hle.
    + constructor; [exact IH|].
      destruct l as [|z l]; cbn.
      * constructor. unfold key_le. lia.
      * inversion Hhd; subst.
        destruct (fst x <=? fst z); constructor; unfold key_le in *; lia.
Qed.

Lemma sort_by_key_sorted (l : list (Z * nat)) : Sorted key_le (sort_by_key l).
Proof.
  induction l as [|x l IH]; cbn; [constructor|].
  apply insert_by_key_sorted. exact IH.
Qed.

(** Inserting passes only elements with a strictly smaller key, so the
    elements of any one key keep their order. *)
Lemma insert_by_key_filter (k : Z) (x : Z * nat) (l : list (Z * nat)) :
  List.filter (has_key k) (insert_by_key x l)
  = List.filter (has_key k) (x :: l).
Proof.
  induction l as [|y l IH]; cbn; [reflexivity|].
  destruct (Z.leb_spec (fst x) (fst y)) as [Hle|Hgt]; [reflexivity|].
  cbn. rewrite IH. cbn. unfold has_key.
  destruct (Z.eqb_spec (fst x) k) as [Hx|Hx];
    destruct (Z.eqb_spec (fst y) k) as [Hy|Hy]; try reflexivity. lia.
Qed.

Lemma sort_by_key_stable (k : Z) (l : list (Z * nat)) :
  List.filter (has_key k) (sort_by_key l) = List.filter (has_key k) l.
Proof.
  induction l as [|x l IH]; cbn; [reflexivity|].
  rewrite insert_by_key_filter. cbn. rewrite IH. reflexivity.
Qed.

Lemma filter_has_key_cons (k : Z) (p : Z * nat) (l : list (Z * nat)) :
  List.filter (has_key k) (p :: l)
  = if fst p =? k then p :: List.filter (has_key k) l
    else List.filter (has_key k) l.
Proof. reflexivity. Qed.

Lemma filter_has_key_nil (k : Z) (l : list (Z * nat)) :
  Forall (fun p => fst p <> k) l -> List.filter (has_key k) l = [].
Proof.
  induction 1 as [|p l Hp _ IH]; [reflexivity|].
  rewrite filter_has_key_cons.
  destruct (Z.eqb_spec (fst p) k); [contradiction|exact IH].
Qed.

Lemma key_le_trans : Relations_1.Transitive key_le.
Proof. intros a b c. unfold key_le. lia. Qed.

(** Two sorted lists in which the elements of every key are the same, in the
    same order, are the same list. *)
Lemma sorted_filters_eq (a : list (Z * nat)) :
  forall b,
    Sorted key_le a -> Sorted key_le b ->
    (forall k, List.filter (has_key k) a = List.filter (has_key k) b) ->
    a = b.
Proof.
  induction a as [|x a IH]; intros b Ha Hb Hf.
  - destruct b as [|y b]; [reflexivity|].
    specialize (Hf (fst y)). rewrite filter_has_key_cons, Z.eqb_refl in Hf.
    discriminate.
  - apply Sorted_StronglySorted in Ha; [|exact key_le_trans].
    inversion Ha as [|? ? Ha' Hx]; subst.
    destruct b as [|y b].
    { specialize (Hf (fst x)). rewrite filter_has_key_cons, Z.eqb_refl in Hf.
      discriminate. }
    apply Sorted_StronglySorted in Hb; [|exact key_le_trans].
    inversion Hb as [|? ? Hb' Hy]; subst.
    assert (Hk : fst y = fst x).
    { destruct (Z.lt_total (fst y) (fst x)) as [Hlt|[Heq|Hgt]];
        [exfalso|exact Heq|exfalso].
      - specialize (Hf (fst y)). rewrite !filter_has_key_cons in Hf.
        rewrite Z.eqb_refl in Hf.
        destruct (Z.eqb_spec (fst x) (fst y)); [lia|].
        rewrite filter_has_key_nil in Hf; [discriminate|].
        eapply Forall_impl; [exact Hx|]. unfold key_le. intros; lia.
      - specialize (Hf (fst x)). rewrite !filter_has_key_cons in Hf.
        rewrite Z.eqb_refl in Hf.
        destruct (Z.eqb_spec (fst y) (fst x)); [lia|].
        rewrite (filter_has_key_nil (fst x) b) in Hf; [discriminate|].
        eapply Forall_impl; [exact Hy|]. unfold key_le. intros; lia. }
    pose proof (Hf (fst x)) as Hfx. rewrite !filter_has_key_cons in Hfx.
    rewrite Hk, Z.eqb_refl in Hfx. injection Hfx as Hxy Hrest.
    subst y. f_equal. apply IH.
    + apply StronglySorted_Sorted. exact Ha'.
    + apply StronglySorted_Sorted. exact Hb'.
    + intros k. destruct (Z.eq_dec k (fst x)) as [->|Hne]; [exact Hrest|].
      specialize (Hf k). rewrite !filter_has_key_cons in Hf.
      destruct (Z.eqb_spec (fst x) k); [congruence|]. exact Hf.
Qed.

(** What the library promises of [sort] (ascending keys, every key class in
    its old order) leaves one possible result, the one [sort_by_key]
    computes. *)
Lemma stable_sort_unique (l out : list (Z * nat)) :
  Sorted key_le out ->
  (forall k, List.filter (has_key k) out = List.filter (has_key k) l) ->
  out = sort_by_key l.
Proof.
  intros Hs Hf. apply sorted_filters_eq; [exact Hs|apply sort_by_key_sorted|].
  intros k. rewrite Hf, sort_by_key_stable. reflexivity.
Qed.

Lemma sort_keys_keyed (h : heap) (transits : list nat) :
  (forall l, l ∈ transits ->
             exists transit n, h !! l = Some transit
                               /\ n_samples transit = Some n) ->
  sort_keys h transits = Ok (map (keyed h) transits).
Proof.
  induction transits as [|l ts IH]; intros H; cbn; [reflexivity|].
  destruct (H l) as (t & n & Ht & Hn); [left|].
  unfold sort_key, deref, keyed at 1, sample_count. rewrite Ht. cbn.
  rewrite Hn. cbn. rewrite IH; [reflexivity|].
  intros l' Hl'. apply H. right. exact Hl'.
Qed.

Lemma sort_keys_refs (h : heap) :
  forall transits ks,
    sort_keys h transits = Ok ks -> map snd ks = transits.
Proof.
  induction transits as [|l ts IH]; intros ks H; cbn in H.
  - injection H as <-. reflexivity.
  - inv_bind H. inv_bind H. injection H as <-. cbn. f_equal. auto.
Qed.

(** The sort returns the references it was given, in another order. *)
Lemma sort_transits_perm (h : heap) (transits ranked : list nat) :
  sort_transits h transits = Ok ranked -> Permutation transits ranked.
Proof.
  unfold sort_transits. intros H. inv_bind H. injection H as <-.
  rewrite <- (sort_keys_refs h _ _ Ha).
  apply Permutation_map. apply sort_by_key_perm.
Qed.

Lemma keyed_snd (h : heap) (ps : list (Z * nat)) :
  Forall (fun p => p = keyed h (snd p)) ps -> ps = map (keyed h) (map snd ps).
Proof.
  induction 1 as [|p ps Hp _ IH]; cbn; [reflexivity|]. congruence.
Qed.

Lemma filter_keyed (h : heap) (k : Z) (l : list nat) :
  List.filter (has_key k) (map (keyed h) l)
  = map (keyed h) (List.filter (fun l => sample_count h l =? k) l).
Proof.
  induction l as [|x l IH]; cbn; [reflexivity|].
  unfold has_key at 1. cbn.
  destruct (sample_count h x =? k); cbn; rewrite IH; reflexivity.
Qed.

Lemma sorted_keyed (h : heap) (l : list nat) :
  StronglySorted key_le (map (keyed h) l) ->
  StronglySorted (fun a b => sample_count h a <= sample_count h b) l.
Proof.
  induction l as [|x l IH]; cbn; intros H; [constructor|].
  inversion H as [|? ? Hs Hall]; subst. constructor; [auto|].
  rewrite Forall_map in Hall. exact Hall.
Qed.

(** C6. When every transit of the list has its sample count, the sort
    returns a list that is a permutation of the one it was given (of the same
    length, nothing dropped), in which the sample counts never decrease, and
    in which the transits of any one sample count stand in the order they
    had before. *)
Theorem sort_transits_stable (h : heap) (transits : list nat) :
  (forall l, l ∈ transits ->
             exists transit n, h !! l = Some transit
                               /\ n_samples transit = Some n) ->
  exists ranked,
    sort_transits h transits = Ok ranked
    /\ Permutation transits ranked
    /\ length ranked = length transits
    /\ StronglySorted
         (fun a b => sample_count h a <= sample_count h b) ranked
    /\ forall k,
        List.filter (fun l => sample_count h l =? k) ranked
        = List.filter (fun l => sample_count h l =? k) transits.
Proof.
  intros Hkeys.
  pose proof (sort_keys_keyed h transits Hkeys) as Hks.
  set (ps := sort_by_key (map (keyed h) transits)).
  assert (Hrun : sort_transits h transits = Ok (map snd ps))
    by (unfold sort_transits; rewrite Hks; reflexivity).
  exists (map snd ps). split; [exact Hrun|].
  pose proof (sort_transits_perm h _ _ Hrun) as Hperm.
  assert (Hps : ps = map (keyed h) (map snd ps)).
  { apply keyed_snd.
    eapply Permutation_Forall; [apply sort_by_key_perm|].
    apply Forall_map, Forall_forall. reflexivity. }
  split; [exact Hperm|]. split; [symmetry; apply Permutation_length, Hperm|].
  split.
  - apply sorted_keyed. rewrite <- Hps.
    apply Sorted_StronglySorted; [|apply sort_by_key_sorted].
    intros a b c. unfold key_le. lia.
  - intros k.
    pose proof (sort_by_key_stable k (map (keyed h) transits)) as Hst.
    fold ps in Hst. rewrite Hps, !filter_keyed in Hst.
    apply (f_equal (map snd)) in Hst.
    rewrite !map_map in Hst. cbn in Hst. rewrite !map_id in Hst. exact Hst.
Qed.

(** ** The filter chain *)

Lemma select_and_then (p q : Transit -> result bool) (h : heap) :
  forall transits l1 l2,
    select p h transits = Ok l1 ->
    select q h l1 = Ok l2 ->
    select (and_then p q) h transits = Ok l2.
Proof.
  induction transits as [|l ts IH]; intros l1 l2 Hp Hq; cbn in Hp.
  - injection Hp as <-. exact Hq.
  - inv_bind Hp. inv_bind Hp. inv_bind Hp. injection Hp as <-.
    cbn. rewrite Ha. cbn. unfold and_then at 1. rewrite Ha0. cbn.
    destruct a0.
    + cbn in Hq. rewrite Ha in Hq. cbn in Hq.
      inv_bind Hq. inv_bind Hq. injection Hq as <-.
      rewrite Ha2. cbn. rewrite (IH _ _ Ha1 Ha3). reflexivity.
    + cbn. rewrite (IH _ _ Ha1 Hq). reflexivity.
Qed.

(** A candidate passes the chain exactly when the four predicates keep
    it. *)
Lemma admissible_true_iff `{L : Library} (config : Config)
    (transit : Transit) :
  admissible config transit = Ok true
  <-> filter_depth transit config = Ok true
      /\ filter_meridian_flip transit = Ok true
      /\ filter_time transit config = Ok true
      /\ filter_elevation transit config = Ok true.
Proof.
  unfold admissible.
  destruct (filter_depth transit config) as [[|]|]; cbn;
    try (split; [discriminate|intros (H & _); discriminate]).
  destruct (filter_meridian_flip transit) as [[|]|]; cbn;
    try (split; [discriminate|intros (_ & H & _); discriminate]).
  destruct (filter_time transit config) as [[|]|]; cbn;
    try (split; [discriminate|intros (_ & _ & H & _); discriminate]).
  split; [auto|]. intros (_ & _ & _ & H). exact H.
Qed.

(** Filtering the whole list four times, as the four lines read, gives
    what drawing each candidate through the four predicates gives. *)
Lemma select_admissible_stages `{L : Library} (config : Config) (h : heap)
    (transits l1 l2 l3 l4 : list nat) :
  select (fun t => filter_depth t config) h transits = Ok l1 ->
  select filter_meridian_flip h l1 = Ok l2 ->
  select (fun t => filter_time t config) h l2 = Ok l3 ->
  select (fun t => filter_elevation t config) h l3 = Ok l4 ->
  select (admissible config) h transits = Ok l4.
Proof.
  intros H1 H2 H3 H4.
  pose proof (select_and_then _ _ h _ _ _ H3 H4) as H34.
  pose proof (select_and_then _ _ h _ _ _ H2 H34) as H234.
  exact (select_and_then _ _ h _ _ _ H1 H234).
Qed.

(** C10. From the list the reading of the table leaves to the ranked list:
    the filter chain returns a subsequence of the list, in the same order,
    without touching the store; the ranked list is a permutation of that
    subsequence; and every transit of the store is afterwards what it was
    when it was read, in every key, except that the transits that survive
    have received their sample count, which none had before.  No other
    reference appears in the store. *)
Theorem pipeline_frame `{L : Library}
    (config : Config) (y : Z) (rows : list Row)
    (h h' : heap) (transits ranked : list nat) :
  read_rows y rows ∅ [] = Ok (Read h transits) ->
  rank config h transits = Ok (h', ranked) ->
  exists survivors,
    select (admissible config) h transits = Ok survivors
    /\ sublist survivors transits
    /\ NoDup survivors
    /\ Permutation survivors ranked
    /\ (forall l, h !! l = None -> h' !! l = None)
    /\ forall l transit,
        h !! l = Some transit ->
        exists transit',
          h' !! l = Some transit'
          /\ object transit' = object transit
          /\ mag_depth transit' = mag_depth transit
          /\ begin transit' = begin transit
          /\ center transit' = center transit
          /\ end_ transit' = end_ transit
          /\ n_samples transit = None
          /\ (l ∈ survivors ->
              exists n, get_database_sample_number (object transit) = Ok n
                        /\ n_samples transit' = Some n)
          /\ (l ∉ survivors -> transit' = transit).
Proof.
  intros Hread Hrank.
  pose proof (read_rows_freshly_read y rows _ _ _ _ freshly_read_empty Hread)
    as (Hnd & Hlive & Hnone).
  unfold rank in Hrank. inv_bind Hrank. inv_bind Hrank. inv_bind Hrank.
  injection Hrank as <- <-. rename a into survivors, a0 into h'.
  pose proof (select_sublist _ _ _ _ Ha) as Hsub.
  pose proof (sublist_NoDup _ _ Hnd Hsub) as Hnd'.
  destruct (enrich_frame _ _ _ Hnd' Ha0) as [Hout Hin].
  exists survivors. split; [exact Ha|]. split; [exact Hsub|].
  split; [exact Hnd'|]. split; [exact (sort_transits_perm _ _ _ Ha1)|].
  split.
  - intros l Hl. rewrite Hout; [exact Hl|].
    intros Hs. destruct (Hin l Hs) as (t & n & Ht & _). congruence.
  - intros l t Hl. destruct (decide (l ∈ survivors)) as [Hs|Hs].
    + destruct (Hin l Hs) as (t' & n & Ht' & Hn & Hl').
      rewrite Hl in Ht'. injection Ht' as <-.
      exists (set_n_samples n t). cbn.
      repeat split; eauto. contradiction.
    + exists t. rewrite (Hout l Hs).
      repeat split; eauto. contradiction.
Qed.

(** ** The output *)

Lemma days_before_next_year (y : Z) :
  days_before_year (y + 1) = days_before_year y + 334 + 31
                             + (if is_leap y then 1 else 0).
Proof.
  unfold days_before_year, is_leap.
  replace (y + 1 - 1) with y by lia.
  destruct (Z.eqb_spec (y mod 4) 0); destruct (Z.eqb_spec (y mod 100) 0);
    destruct (Z.eqb_spec (y mod 400) 0); cbn [negb orb andb];
    Z.div_mod_to_equations; lia.
Qed.

Lemma days_before_next_month (y m : Z) :
  1 <= m <= 11 ->
  days_before_month y (m + 1) = days_before_month y m + days_in_month y m.
Proof.
  intros Hm.
  assert (Hcases : m = 1 \/ m = 2 \/ m = 3 \/ m = 4 \/ m = 5 \/ m = 6 \/ m = 7
                   \/ m = 8 \/ m = 9 \/ m = 10 \/ m = 11) by lia.
  unfold days_before_month, days_in_month.
  repeat (destruct Hcases as [->|Hcases]); try subst m;
    cbn; destruct (is_leap y); reflexivity.
Qed.

(** The zone two hours east shows the same instant 120 minutes later on the
    clock, on a date that exists. *)
Lemma astimezone_two_hours (d zoned : datetime) :
  valid_date (year d) (month d) (day d) = true ->
  valid_clock (hour d) (minute d) = true ->
  astimezone d = Ok zoned ->
  minute_number zoned = minute_number d + 120
  /\ valid_date (year zoned) (month zoned) (day zoned) = true
  /\ valid_clock (hour zoned) (minute zoned) = true.
Proof.
  unfold valid_date, valid_clock, astimezone, minute_number.
  intros Hd Hc. split_andb.
  destruct (Z.ltb_spec (hour d + 2) 24).
  { intros [= <-]. cbn.
    split; [lia|split]; repeat (apply andb_true_iff; split);
      first [reflexivity | apply Z.leb_le; lia]. }
  destruct (Z.ltb_spec (day d) (days_in_month (year d) (month d))).
  { intros [= <-]. cbn.
    split; [lia|split]; repeat (apply andb_true_iff; split);
      first [reflexivity | apply Z.leb_le; lia]. }
  destruct (Z.ltb_spec (month d) 12).
  { intros [= <-]. cbn.
    rewrite (days_before_next_month (year d) (month d)) by lia.
    assert (1 <= days_in_month (year d) (month d + 1)).
    { unfold days_in_month. repeat match goal with
                                   | |- context [if ?c then _ else _] =>
                                       destruct c
                                   end; lia. }
    split; [lia|split]; repeat (apply andb_true_iff; split);
      first [reflexivity | apply Z.leb_le; lia]. }
  destruct (Z.ltb_spec (year d) 9999); [|discriminate].
  intros [= <-]. cbn.
  rewrite days_before_next_year.
  assert (Hm : month d = 12) by lia. rewrite Hm in *.
  unfold days_before_month, days_in_month in *. cbn in *.
  split; [destruct (is_leap (year d)); lia|split];
    repeat (apply andb_true_iff; split);
    first [reflexivity | apply Z.leb_le; lia].
Qed.

Lemma astimezone_before_last_year (d : datetime) :
  year d < 9999 -> exists zoned, astimezone d = Ok zoned.
Proof.
  intros Hy. unfold astimezone.
  repeat match goal with
         | |- context [if ?c then _ else _] => destruct c eqn:?
         end; eauto.
  apply Z.ltb_ge in Heqb2. lia.
Qed.

Lemma moment_rendered (m : Moment) :
  renderable m = true ->
  exists time_text elevation_text,
    moment_time m = Ok time_text
    /\ moment_elevation m = Ok elevation_text
    /\ rendered m time_text elevation_text.
Proof.
  unfold renderable, moment_time, moment_elevation, rendered.
  destruct m as [[d|] [el|]]; cbn; try discriminate. intros H.
  apply andb_true_iff in H. destruct H as [H Hy].
  apply andb_true_iff in H. destruct H as [Hd Hc].
  apply Z.ltb_lt in Hy.
  destruct (astimezone_before_last_year d Hy) as [zoned Hz].
  destruct (astimezone_two_hours d zoned Hd Hc Hz) as [Hshift _].
  rewrite Hz. cbn. eexists _, _. split; [reflexivity|]. split; [reflexivity|].
  exists d, el, zoned. auto.
Qed.

Lemma csv_data_printable `{L : Library} (transit : Transit) :
  printable transit = true ->
  exists n bt be ct ce et ee,
    n_samples transit = Some n
    /\ rendered (begin transit) bt be
    /\ rendered (center transit) ct ce
    /\ rendered (end_ transit) et ee
    /\ csv_data transit
       = Ok [object transit; str_float (mag_depth transit); str_int n;
             bt; be; ct; ce; et; ee].
Proof.
  unfold printable, csv_data. destruct (n_samples transit) as [n|];
    [|discriminate].
  intros H. apply andb_true_iff in H. destruct H as [H He].
  apply andb_true_iff in H. destruct H as [Hb Hc].
  destruct (moment_rendered _ Hb) as (bt & be & Hbt & Hbe & Rb).
  destruct (moment_rendered _ Hc) as (ct & ce & Hct & Hce & Rc).
  destruct (moment_rendered _ He) as (et & ee & Het & Hee & Re).
  exists n, bt, be, ct, ce, et, ee.
  rewrite Hbt, Hbe, Hct, Hce, Het, Hee. cbn. auto.
Qed.

(** C8 (as amended). For a list of transits that have all their keys, the
    delimited output is the header line, whose three time columns are
    labelled [(cest)], followed by one line per transit in the order of the
    list and nothing after it; a line gives the object, the depth, the sample
    count and, for begin, center and end, the time shown two hours ahead of
    UTC and the elevation. *)
Theorem print_transits_csv_table `{L : Library}
    (h : heap) (transits : list nat) :
  (forall l, l ∈ transits ->
             exists transit, h !! l = Some transit
                             /\ printable transit = true) ->
  exists lines,
    print_transits_csv h transits
    = mkOutcome
        (labelled_header
         :: lines) None
    /\ Forall2
         (fun l line =>
            exists transit n bt be ct ce et ee,
              h !! l = Some transit
              /\ n_samples transit = Some n
              /\ rendered (begin transit) bt be
              /\ rendered (center transit) ct ce
              /\ rendered (end_ transit) et ee
              /\ line = join ";" [object transit;
                                  str_float (mag_depth transit);
                                  str_int n; bt; be; ct; ce; et; ee])
         transits lines.
Proof.
  intros Hall.
  assert (Hrows : exists lines,
             print_rows h transits = mkOutcome lines None
             /\ Forall2
                  (fun l line =>
                     exists transit n bt be ct ce et ee,
                       h !! l = Some transit
                       /\ n_samples transit = Some n
                       /\ rendered (begin transit) bt be
                       /\ rendered (center transit) ct ce
                       /\ rendered (end_ transit) et ee
                       /\ line = join ";" [object transit;
                                           str_float (mag_depth transit);
                                           str_int n; bt; be; ct; ce; et; ee])
                  transits lines).
  { induction transits as [|l ts IH].
    - exists []. split; [reflexivity|constructor].
    - destruct (Hall l) as (t & Hl & Hp); [left|].
      destruct IH as (lines & Hrun & Hlines).
      { intros l' Hl'. apply Hall. right. exact Hl'. }
      destruct (csv_data_printable t Hp)
        as (n & bt & be & ct & ce & et & ee & Hn & Rb & Rc & Re & Hdata).
      eexists (_ :: lines). split.
      + cbn [print_rows]. unfold deref. rewrite Hl. cbn [bind].
        rewrite Hdata, Hrun. reflexivity.
      + constructor; [|exact Hlines].
        exists t, n, bt, be, ct, ce, et, ee. auto 10. }
  destruct Hrows as (lines & Hrun & Hlines).
  exists lines. split; [|exact Hlines].
  unfold print_transits_csv. rewrite Hrun. reflexivity.
Qed.

(** * Examples *)

(** ** Meridian flip *)

Lemma filter_meridian_flip_discards_iff_witness :
  elevation (begin flip_transit) = Some 10
  /\ elevation (center flip_transit) = Some 30
  /\ elevation (end_ flip_transit) = Some 15
  /\ (filter_meridian_flip flip_transit = Ok false <-> 10 < 30 /\ 15 < 30)
  /\ (filter_meridian_flip flip_transit = Ok true <-> ~ (10 < 30 /\ 15 < 30)).
Proof.
  split; [reflexivity|]. split; [reflexivity|]. split; [reflexivity|].
  exact (filter_meridian_flip_discards_iff flip_transit 10 30 15
           eq_refl eq_refl eq_refl).
Defined.

(** Elevations (10, 30, 15) are discarded; (30, 10, 40) and (10, 30, 40) are
    kept. *)
Example filter_meridian_flip_examples :
  filter_meridian_flip (example_transit 19 0 10 20 0 30 21 0 15 None)
  = Ok false
  /\ filter_meridian_flip (example_transit 19 0 30 20 0 10 21 0 40 None)
     = Ok true
  /\ filter_meridian_flip (example_transit 19 0 10 20 0 30 21 0 40 None)
     = Ok true.
Proof. repeat split. Qed.

(** ** Elevation threshold *)

Lemma filter_elevation_keeps_iff_witness :
  elevation (begin threshold_transit) = Some 25
  /\ elevation (center threshold_transit) = Some 20
  /\ elevation (end_ threshold_transit) = Some 30
  /\ (filter_elevation threshold_transit example_config = Ok true
      <-> 20 <= 25 /\ 20 <= 20 /\ 20 <= 30)
  /\ (filter_elevation threshold_transit example_config = Ok false
      <-> 25 < 20 \/ 20 < 20 \/ 30 < 20).
Proof.
  split; [reflexivity|]. split; [reflexivity|]. split; [reflexivity|].
  exact (filter_elevation_keeps_iff threshold_transit example_config 25 20 30
           eq_refl eq_refl eq_refl).
Defined.

(** With the threshold at 20, a center at exactly 20 passes and any sample
    at 19 is discarded. *)
Example filter_elevation_examples :
  filter_elevation (example_transit 19 0 25 20 0 20 21 0 30 None)
                   example_config = Ok true
  /\ filter_elevation (example_transit 19 0 19 20 0 35 21 0 30 None)
                      example_config = Ok false
  /\ filter_elevation (example_transit 19 0 25 20 0 19 21 0 30 None)
                      example_config = Ok false
  /\ filter_elevation (example_transit 19 0 25 20 0 35 21 0 19 None)
                      example_config = Ok false.
Proof. repeat split. Qed.

(** ** Depth *)

Lemma filter_depth_keeps_iff_witness :
  finite64 (mag_depth hat_p_1) = true
  /\ finite64 (min_mag_depth example_config) = true
  /\ (filter_depth hat_p_1 example_config = Ok true
      <-> float_units (min_mag_depth example_config)
          <= float_units (mag_depth hat_p_1)).
Proof.
  split; [reflexivity|]. split; [reflexivity|].
  exact (proj2 (proj2 (filter_depth_keeps_iff hat_p_1 example_config))
           eq_refl eq_refl).
Defined.

(** A depth of 0.5 and one equal to the minimum of 0.015625 pass; a depth of
    0.0078125 and a NaN do not. *)
Example filter_depth_examples :
  filter_depth hat_p_1 example_config = Ok true
  /\ filter_depth (mkTransit "b" float_0_015625 None empty_moment
                             empty_moment empty_moment) example_config
     = Ok true
  /\ filter_depth (mkTransit "b" float_0_0078125 None empty_moment
                             empty_moment empty_moment) example_config
     = Ok false
  /\ filter_depth (mkTransit "b" S754_nan None empty_moment
                             empty_moment empty_moment) example_config
     = Ok false.
Proof. repeat split. Qed.

(** ** Time window *)

Lemma filter_time_keeps_iff_witness :
  time (begin window_transit) = Some (mkDatetime 2023 6 8 18 0)
  /\ time (end_ window_transit) = Some (mkDatetime 2023 6 8 23 0)
  /\ valid_clock 18 0 = true
  /\ valid_clock 23 0 = true
  /\ fromisoformat (Library := example_library) (min_start_time example_config)
     = Ok (mkDaytime 18 0 0 0 (Some 0))
  /\ fromisoformat (Library := example_library) (max_end_time example_config)
     = Ok (mkDaytime 23 0 0 0 (Some 0))
  /\ valid_daytime (mkDaytime 18 0 0 0 (Some 0)) = true
  /\ valid_daytime (mkDaytime 23 0 0 0 (Some 0)) = true
  /\ utcoffset (mkDaytime 18 0 0 0 (Some 0)) = Some 0
  /\ utcoffset (mkDaytime 23 0 0 0 (Some 0)) = Some 0
  /\ (filter_time (L := example_library) window_transit example_config
      = Ok true
      \/ filter_time (L := example_library) window_transit example_config
         = Ok false)
  /\ (filter_time (L := example_library) window_transit example_config
      = Ok true
      <-> utc_microsecond (mkDaytime 18 0 0 0 (Some 0)) 0
          <= clock_microsecond (mkDatetime 2023 6 8 18 0)
          /\ clock_microsecond (mkDatetime 2023 6 8 23 0)
             <= utc_microsecond (mkDaytime 23 0 0 0 (Some 0)) 0).
Proof.
  do 10 (split; [reflexivity|]).
  exact (filter_time_keeps_iff (L := example_library)
           window_transit example_config
           (mkDatetime 2023 6 8 18 0) (mkDatetime 2023 6 8 23 0)
           (mkDaytime 18 0 0 0 (Some 0)) (mkDaytime 23 0 0 0 (Some 0)) 0 0
           eq_refl eq_refl eq_refl eq_refl eq_refl eq_refl
           eq_refl eq_refl eq_refl eq_refl).
Defined.

(** With the window 18:00 to 23:00 UTC, a begin at 17:59 is discarded and a
    begin at 18:00 with an end at 23:00 is kept, on any date; an end at
    23:01 is discarded. *)
Example filter_time_examples :
  filter_time (L := example_library)
              (example_transit 17 59 30 20 0 35 21 0 40 None) example_config
  = Ok false
  /\ filter_time (L := example_library)
                 (example_transit 18 0 30 20 0 35 23 0 40 None) example_config
     = Ok true
  /\ filter_time (L := example_library)
                 (example_transit 18 0 30 20 0 35 23 1 40 None) example_config
     = Ok false.
Proof. repeat split. Qed.

(** C4, the claim as stated fails: with the window configured as [18:00] and
    [23:00], a candidate that begins at 18:00 and ends at 23:00 lies inside
    the window, yet the filter does not keep it: the comparison of its times,
    which carry the UTC zone, with the configured times, which carry none,
    raises [TypeError]. *)
Lemma filter_time_naive_window_raises :
  filter_time (L := example_library) window_transit naive_config
  = Raise TypeError
  /\ ~ (filter_time (L := example_library) window_transit naive_config
        = Ok true
        <-> 18 * 60 + 0 <= clock_minutes (mkDatetime 2023 6 8 18 0)
            /\ clock_minutes (mkDatetime 2023 6 8 23 0) <= 23 * 60 + 0).
Proof.
  split; [reflexivity|].
  intros [_ Hkeep].
  assert (Hin : 18 * 60 + 0 <= clock_minutes (mkDatetime 2023 6 8 18 0)
                /\ clock_minutes (mkDatetime 2023 6 8 23 0) <= 23 * 60 + 0)
    by (split; apply Z.leb_le; reflexivity).
  specialize (Hkeep Hin). discriminate Hkeep.
Qed.

(** ** Fixed field widths *)

Lemma extractStartEndTimes_fixed_widths_witness :
  digits_between 1 2 "11" = true
  /\ digits_between 2 2 "09" = true
  /\ ("" = "" \/ "" = "-")
  /\ digits_between 1 2 "69" = true
  /\ re_search begin_end_re
       ("11" ++ ":" ++ "09" ++ "" ++ "69" ++ degree ++ ",NE")
     = Some ["11"; "09"; "" ++ "69"]
  /\ extractStartEndTimes 2023 6 8 hat_p_1
       ("11" ++ ":" ++ "09" ++ "" ++ "69" ++ degree ++ ",NE") Kbegin
     = (let* t := make_datetime 2023 6 8 (decimal "11") (decimal "09") in
        Ok (set_moment hat_p_1 Kbegin
              (mkMoment (Some t) (Some (signed "" (decimal "69"))))))
  /\ (forall d mo : string,
         digits_between 2 2 d = true -> digits_between 2 2 mo = true ->
         re_search center_re
           (d ++ "." ++ mo ++ ". "
              ++ "11" ++ ":" ++ "09" ++ "" ++ "69" ++ degree ++ ",NE")
         = Some [d; mo; "11"; "09"; "" ++ "69"]).
Proof.
  split; [reflexivity|]. split; [reflexivity|]. split; [left; reflexivity|].
  split; [reflexivity|].
  exact (extractStartEndTimes_fixed_widths 2023 6 8 hat_p_1 Kbegin
           "11" "09" "" "69" ",NE" eq_refl eq_refl (or_introl eq_refl)
           eq_refl).
Defined.

(** ["11:0969°"] is hour 11, minute 9, elevation 69 whatever follows it, and
    the center form reads the same fields after the day and the month; a
    negative elevation keeps its sign. *)
Example fixed_widths_examples :
  (forall rest,
      extractStartEndTimes 2023 6 8 hat_p_1 ("11:0969" ++ degree ++ rest) Kend
      = Ok (set_moment hat_p_1 Kend
              (mkMoment (Some (mkDatetime 2023 6 8 11 9)) (Some 69))))
  /\ re_search center_re ("08.06. 11:0969" ++ degree ++ ",NE")
     = Some ["08"; "06"; "11"; "09"; "69"]
  /\ extractStartEndTimes 2023 6 8 hat_p_1 ("4:30-5" ++ degree) Kbegin
     = Ok (set_moment hat_p_1 Kbegin
             (mkMoment (Some (mkDatetime 2023 6 8 4 30)) (Some (-5)))).
Proof. repeat split. Qed.

(** ** Reading rows *)

Lemma read_row_same_date_any_order_witness :
  float (Library := example_library) "0.5" = Ok float_0_5
  /\ digits_between 2 2 "08" = true
  /\ digits_between 2 2 "06" = true
  /\ valid_date 2023 (decimal "06") (decimal "08") = true
  /\ clock_shape (mkClockText "23" "50" "" "10" ",NE")
  /\ clock_shape (mkClockText "00" "10" "" "20" ",NE")
  /\ clock_shape (mkClockText "00" "30" "" "30" ",NE")
  /\ read_row (L := example_library) 2023 row_backwards
     = Ok (Appended
             (mkTransit "HAT-P-1 b" float_0_5 None
                (field_moment 2023 (decimal "06") (decimal "08")
                              (mkClockText "23" "50" "" "10" ",NE"))
                (field_moment 2023 (decimal "06") (decimal "08")
                              (mkClockText "00" "10" "" "20" ",NE"))
                (field_moment 2023 (decimal "06") (decimal "08")
                              (mkClockText "00" "30" "" "30" ",NE"))))
  /\ read_row (L := example_library) 2023 row_hat_p_1 = Ok (Appended hat_p_1)
  /\ time (begin hat_p_1) = Some (mkDatetime 2023 6 8 19 0)
  /\ time (center hat_p_1) = Some (mkDatetime 2023 6 8 20 0)
  /\ time (end_ hat_p_1) = Some (mkDatetime 2023 6 8 21 0)
  /\ (year (mkDatetime 2023 6 8 19 0) = 2023
      /\ year (mkDatetime 2023 6 8 20 0) = 2023
      /\ year (mkDatetime 2023 6 8 21 0) = 2023)
  /\ (month (mkDatetime 2023 6 8 19 0) = month (mkDatetime 2023 6 8 20 0)
      /\ month (mkDatetime 2023 6 8 21 0) = month (mkDatetime 2023 6 8 20 0))
  /\ (day (mkDatetime 2023 6 8 19 0) = day (mkDatetime 2023 6 8 20 0)
      /\ day (mkDatetime 2023 6 8 21 0) = day (mkDatetime 2023 6 8 20 0))
  /\ (chronological hat_p_1
      <-> clock_minutes (mkDatetime 2023 6 8 19 0)
          < clock_minutes (mkDatetime 2023 6 8 20 0)
          /\ clock_minutes (mkDatetime 2023 6 8 20 0)
             < clock_minutes (mkDatetime 2023 6 8 21 0)).
Proof.
  assert (Hshape : forall h m e,
             digits_between 1 2 h = true -> digits_between 2 2 m = true ->
             digits_between 1 2 e = true ->
             valid_clock (decimal h) (decimal m) = true ->
             clock_shape (mkClockText h m "" e ",NE")).
  { intros h m e Hh Hm He Hc. repeat split; auto. }
  pose proof (Hshape "23" "50" "10" eq_refl eq_refl eq_refl eq_refl) as Hb.
  pose proof (Hshape "00" "10" "20" eq_refl eq_refl eq_refl eq_refl) as Hc.
  pose proof (Hshape "00" "30" "30" eq_refl eq_refl eq_refl eq_refl) as He.
  do 4 (split; [reflexivity|]).
  split; [exact Hb|]. split; [exact Hc|]. split; [exact He|].
  split.
  - exact (proj1 (read_row_same_date_any_order (L := example_library) 2023)
             "HAT-P-1 b" "HAT-P-1 b" "2.5" "11.4" "0.5" "08" "06" [] float_0_5
             _ _ _ eq_refl eq_refl eq_refl eq_refl Hb Hc He).
  - do 4 (split; [reflexivity|]).
    exact (proj2 (read_row_same_date_any_order (L := example_library) 2023)
             row_hat_p_1 hat_p_1 (mkDatetime 2023 6 8 19 0)
             (mkDatetime 2023 6 8 20 0) (mkDatetime 2023 6 8 21 0)
             eq_refl eq_refl eq_refl eq_refl).
Defined.

(** C1, the claim as stated fails: the row whose begin reads 23:50, whose
    center reads 00:10 and whose end reads 00:30 is not rejected; the
    candidate it gives has its begin after its center. *)
Lemma read_row_emits_unordered_times :
  exists transit b c e,
    read_row (L := example_library) 2023 row_backwards = Ok (Appended transit)
    /\ time (begin transit) = Some b
    /\ time (center transit) = Some c
    /\ time (end_ transit) = Some e
    /\ datetime_ltb b c = false
    /\ ~ chronological transit.
Proof.
  exists (example_transit 23 50 10 0 10 20 0 30 30 None),
    (mkDatetime 2023 6 8 23 50), (mkDatetime 2023 6 8 0 10),
    (mkDatetime 2023 6 8 0 30).
  do 5 (split; [reflexivity|]).
  intros (b & c & e & [= <-] & [= <-] & _ & Hbc & _). discriminate Hbc.
Qed.

(** Without a match [extractStartEndTimes] assigns nothing and raises
    nothing. *)
Lemma extractStartEndTimes_no_match (y m d : Z) (transit : Transit)
    (text : string) (key : dict_key) :
  re_search begin_end_re text = None ->
  extractStartEndTimes y m d transit text key = Ok transit.
Proof. unfold extractStartEndTimes. intros ->. reflexivity. Qed.

(** C2, the code at the failing input.  The begin field ["n/a"] matches no
    pattern.  The row is read all the same, into a candidate whose begin has
    no keys; being shallower than the configured depth it is dropped by the
    first filter, and the run prints the table as if the row had not been
    there.  The same row with a sufficient depth reaches the second filter,
    which raises [KeyError].  A center field of that kind stops the run with
    the message as its only output. *)
Theorem unparsable_begin_is_not_fatal :
  re_search begin_end_re "n/a" = None
  /\ read_row (L := example_library) 2023 row_bad_begin_shallow
     = Ok (Appended
             (mkTransit "Qatar-1 b" float_0_0078125 None empty_moment
                (mkMoment (Some (mkDatetime 2023 6 8 20 0)) (Some 35))
                (mkMoment (Some (mkDatetime 2023 6 8 21 0)) (Some 40))))
  /\ main (L := example_library) example_config 2023
          [row_bad_begin_shallow; row_hat_p_1]
     = mkOutcome
         [labelled_header;
          "HAT-P-1 b;0.5;5;2023-06-08 21:00;30;2023-06-08 22:00;35;2023-06-08 23:00;40"]
         None
  /\ main (L := example_library) example_config 2023
          [row_bad_begin_deep; row_hat_p_1]
     = mkOutcome [] (Some KeyError)
  /\ main (L := example_library) example_config 2023
          [row_bad_center; row_hat_p_1]
     = mkOutcome ["Could not parse string '{center_text}'"] None.
Proof. repeat split; vm_compute; reflexivity. Qed.

(** ** Ranking *)

Lemma sort_transits_stable_witness :
  (forall l, l ∈ [0; 1; 2; 3]%nat ->
             exists transit n, counted_store !! l = Some transit
                               /\ n_samples transit = Some n)
  /\ exists ranked,
      sort_transits counted_store [0; 1; 2; 3]%nat = Ok ranked
      /\ Permutation [0; 1; 2; 3]%nat ranked
      /\ length ranked = length [0; 1; 2; 3]%nat
      /\ StronglySorted
           (fun a b => sample_count counted_store a
                       <= sample_count counted_store b) ranked
      /\ forall k,
          List.filter (fun l => sample_count counted_store l =? k) ranked
          = List.filter (fun l => sample_count counted_store l =? k)
                        [0; 1; 2; 3]%nat.
Proof.
  assert (Hkeys : forall l, l ∈ [0; 1; 2; 3]%nat ->
                            exists transit n,
                              counted_store !! l = Some transit
                              /\ n_samples transit = Some n).
  { intros l Hl.
    repeat (apply elem_of_cons in Hl; destruct Hl as [->|Hl];
            [eexists _, _; split; vm_compute; reflexivity|]).
    inversion Hl. }
  split; [exact Hkeys|].
  exact (sort_transits_stable counted_store [0; 1; 2; 3]%nat Hkeys).
Defined.

(** Sample counts 5, 2, 2, 9 sort to 2, 2, 5, 9, and the two transits with
    2 samples stay in the order they had. *)
Example sort_transits_example :
  map (sample_count counted_store) [0; 1; 2; 3]%nat = [5; 2; 2; 9]
  /\ sort_transits counted_store [0; 1; 2; 3]%nat = Ok [1; 2; 0; 3]%nat
  /\ map (sample_count counted_store) [1; 2; 0; 3]%nat = [2; 2; 5; 9].
Proof. repeat split; vm_compute; reflexivity. Qed.

(** ** The whole run *)

Lemma pipeline_frame_witness :
  read_rows (L := example_library) 2023 example_rows ∅ []
  = Ok (Read example_store example_transits)
  /\ rank (L := example_library) example_config example_store
          example_transits
     = Ok (example_ranked_store, example_ranked)
  /\ exists survivors,
      select (admissible (L := example_library) example_config)
             example_store example_transits = Ok survivors
      /\ sublist survivors example_transits
      /\ NoDup survivors
      /\ Permutation survivors example_ranked
      /\ (forall l, example_store !! l = None ->
                    example_ranked_store !! l = None)
      /\ forall l transit,
          example_store !! l = Some transit ->
          exists transit',
            example_ranked_store !! l = Some transit'
            /\ object transit' = object transit
            /\ mag_depth transit' = mag_depth transit
            /\ begin transit' = begin transit
            /\ center transit' = center transit
            /\ end_ transit' = end_ transit
            /\ n_samples transit = None
            /\ (l ∈ survivors ->
                exists n,
                  get_database_sample_number (Library := example_library)
                    (object transit) = Ok n
                  /\ n_samples transit' = Some n)
            /\ (l ∉ survivors -> transit' = transit).
Proof.
  assert (Hread : read_rows (L := example_library) 2023 example_rows ∅ []
                  = Ok (Read example_store example_transits))
    by (vm_compute; reflexivity).
  assert (Hrank : rank (L := example_library) example_config example_store
                       example_transits
                  = Ok (example_ranked_store, example_ranked))
    by (vm_compute; reflexivity).
  split; [exact Hread|]. split; [exact Hrank|].
  exact (pipeline_frame (L := example_library) example_config 2023
           example_rows example_store example_ranked_store example_transits
           example_ranked Hread Hrank).
Defined.

(** Of the eight candidates of the example table, the four that pass the
    four filters are ranked by their sample counts 2, 2, 5 and 9. *)
Example pipeline_example :
  example_transits = [0; 1; 2; 3; 4; 5; 6; 7]%nat
  /\ select (admissible (L := example_library) example_config)
            example_store example_transits = Ok [0; 1; 3; 5]%nat
  /\ example_ranked = [1; 3; 0; 5]%nat
  /\ main (L := example_library) example_config 2023 example_rows
     = mkOutcome
         [labelled_header;
          "WASP-2 b;0.015625;2;2023-06-08 20:00;20;2023-06-08 22:30;21;2023-06-09 01:00;22";
          "XO-3 b;0.5;2;2023-06-09 22:05;69;2023-06-09 23:09;70;2023-06-10 00:10;71";
          "HAT-P-1 b;0.5;5;2023-06-08 21:00;30;2023-06-08 22:00;35;2023-06-08 23:00;40";
          "TrES-4 b;0.5;9;2023-06-10 21:00;50;2023-06-10 22:00;40;2023-06-10 23:00;30"]
         None.
Proof. repeat split; vm_compute; reflexivity. Qed.

(** ** The delimited output *)

Lemma print_transits_csv_table_witness :
  (forall l, l ∈ example_ranked ->
             exists transit, example_ranked_store !! l = Some transit
                             /\ printable transit = true)
  /\ exists lines,
      print_transits_csv (L := example_library) example_ranked_store
                         example_ranked
      = mkOutcome
          (labelled_header
           :: lines) None
      /\ Forall2
           (fun l line =>
              exists transit n bt be ct ce et ee,
                example_ranked_store !! l = Some transit
                /\ n_samples transit = Some n
                /\ rendered (begin transit) bt be
                /\ rendered (center transit) ct ce
                /\ rendered (end_ transit) et ee
                /\ line = join ";" [object transit;
                                    str_float (Library := example_library)
                                      (mag_depth transit);
                                    str_int n; bt; be; ct; ce; et; ee])
           example_ranked lines.
Proof.
  assert (Hall : forall l, l ∈ example_ranked ->
                           exists transit,
                             example_ranked_store !! l = Some transit
                             /\ printable transit = true).
  { intros l Hl. change example_ranked with [1; 3; 0; 5]%nat in Hl.
    repeat (apply elem_of_cons in Hl; destruct Hl as [->|Hl];
            [eexists; split; vm_compute; reflexivity|]).
    inversion Hl. }
  split; [exact Hall|].
  exact (print_transits_csv_table (L := example_library)
           example_ranked_store example_ranked Hall).
Defined.

(** C8, the claim as stated fails: the header line the program prints is not
    the header of the claim; its three time columns carry the label
    [(cest)].  An empty list shows it. *)
Lemma print_transits_csv_header_is_labelled :
  print_transits_csv (L := example_library) ∅ []
  = mkOutcome
      [labelled_header]
      None
  /\ stdout (print_transits_csv (L := example_library) ∅ [])
     <> [unlabelled_header].
Proof. split; [reflexivity|]. intros H. discriminate H. Qed.

(** * Further properties *)

(** ** Reading the table, further *)

(** Reading a table in two parts. *)
Lemma read_rows_app `{L : Library} (y : Z) (rows1 rows2 : list Row) :
  forall (h : heap) (transits : list nat),
    read_rows y (rows1 ++ rows2)%list h transits
    = match read_rows y rows1 h transits with
      | Ok (Read h' transits') => read_rows y rows2 h' transits'
      | other => other
      end.
Proof.
  induction rows1 as [|tr rows1 IH]; intros h ts; cbn [app read_rows].
  - reflexivity.
  - destruct (read_row y tr) as [[| |transit]|e]; cbn [bind];
      [apply IH|reflexivity|apply IH|reflexivity].
Qed.

(** X1. A row without a link, wherever it stands in the table and whatever
    its cells, leaves no trace: the run gives what it gives without the
    row. *)
Theorem main_skips_rows_without_link `{L : Library}
    (config : Config) (y : Z) (rows1 rows2 : list Row) (tr : Row) :
  a_string tr = None ->
  main config y (rows1 ++ tr :: rows2)%list = main config y (rows1 ++ rows2)%list.
Proof.
  intros Hlink. unfold main. rewrite !read_rows_app.
  destruct (read_rows y rows1 ∅ []) as [[h ts|msg]|e]; try reflexivity.
  cbn [read_rows]. unfold read_row at 1. rewrite Hlink. reflexivity.
Qed.

Lemma read_row_unparsable_center `{L : Library} (y : Z) (tr : Row)
    (name depth_text center_text : string) (depth : spec_float) :
  a_string tr = Some name ->
  index (tds tr) 6 = Ok depth_text ->
  float depth_text = Ok depth ->
  index (tds tr) 2 = Ok center_text ->
  re_search center_re center_text = None ->
  read_row y tr = Ok Unparsable.
Proof.
  intros Hn H6 Hf H2 Hre. unfold read_row.
  rewrite Hn, H6. cbn [bind]. rewrite Hf. cbn [bind]. rewrite H2. cbn [bind].
  rewrite Hre. reflexivity.
Qed.

(** X2. When the rows before it are read without incident, a linked row
    whose center text does not match the pattern ends the run: the only
    output is the message, which shows the name of the variable and not the
    text, and the rows after it are not read. *)
Theorem main_stops_at_unparsable_center `{L : Library}
    (config : Config) (y : Z) (rows1 rows2 : list Row) (tr : Row)
    (h : heap) (transits : list nat)
    (name depth_text center_text : string) (depth : spec_float) :
  read_rows y rows1 ∅ [] = Ok (Read h transits) ->
  a_string tr = Some name ->
  index (tds tr) 6 = Ok depth_text ->
  float depth_text = Ok depth ->
  index (tds tr) 2 = Ok center_text ->
  re_search center_re center_text = None ->
  main config y (rows1 ++ tr :: rows2)%list
  = mkOutcome ["Could not parse string '{center_text}'"] None.
Proof.
  intros Hread Hn H6 Hf H2 Hre. unfold main.
  rewrite read_rows_app, Hread. cbn [read_rows].
  rewrite (read_row_unparsable_center y tr _ _ _ _ Hn H6 Hf H2 Hre).
  reflexivity.
Qed.

(** X3. When the rows before it are read without incident, a linked row
    with fewer than seven cells ends the run with [IndexError] and no
    output, whatever its cells hold. *)
Theorem main_short_row_raises `{L : Library}
    (config : Config) (y : Z) (rows1 rows2 : list Row) (tr : Row)
    (h : heap) (transits : list nat) (name : string) :
  read_rows y rows1 ∅ [] = Ok (Read h transits) ->
  a_string tr = Some name ->
  (length (tds tr) < 7)%nat ->
  main config y (rows1 ++ tr :: rows2)%list = mkOutcome [] (Some IndexError).
Proof.
  intros Hread Hn Hlen. unfold main.
  rewrite read_rows_app, Hread. cbn [read_rows].
  unfold read_row. rewrite Hn. unfold index at 1.
  assert (Hnth : nth_error (tds tr) 6 = None)
    by (apply nth_error_None; lia).
  rewrite Hnth. reflexivity.
Qed.

(** ** What a row is read into *)

(** X4. A begin or end text of the expected shape whose hour is above 23 or
    whose minute is above 59 (or on a date that does not exist) is not
    ignored as a text of another shape is: the constructor of the date
    raises [ValueError]. *)
Theorem extractStartEndTimes_out_of_range
    (y m d : Z) (transit : Transit) (key : dict_key)
    (h mi sign e rest : string) :
  digits_between 1 2 h = true ->
  digits_between 2 2 mi = true ->
  sign = "" \/ sign = "-" ->
  digits_between 1 2 e = true ->
  valid_date y m d && valid_clock (decimal h) (decimal mi) = false ->
  extractStartEndTimes y m d transit
    (h ++ ":" ++ mi ++ sign ++ e ++ degree ++ rest) key
  = Raise ValueError.
Proof.
  intros Hh Hm Hs He Hbad. unfold extractStartEndTimes, re_search.
  rewrite (begin_end_attempts h mi sign e rest Hh Hm Hs He).
  rewrite (int_digits 1 2 h (le_n 1) Hh).
  rewrite (int_digits 2 2 mi (le_S _ _ (le_n 1)) Hm).
  rewrite (int_signed 1 2 sign e (le_n 1) Hs He).
  cbn [bind]. unfold make_datetime. rewrite Hbad. reflexivity.
Qed.

Lemma names_insert (y : Z) (h : heap) (l l' : nat) (name : string)
    (transit : Transit) :
  h !! l' = None -> names y h l name -> names y (<[l' := transit]> h) l name.
Proof.
  intros Hfresh (t & Hl & Hn & Hw). exists t. split; [|auto].
  rewrite lookup_insert_ne; [exact Hl|]. intros ->. congruence.
Qed.

Lemma read_row_well_read `{L : Library} (y : Z) (tr : Row)
    (transit : Transit) :
  read_row y tr = Ok (Appended transit) ->
  a_string tr = Some (object transit) /\ well_read y transit.
Proof.
  intros H. destruct (read_row_inv y tr transit H)
    as (m & d & c & ce & Hn & Hs & Hc & Hd & Hb & He).
  split; [exact Hn|]. exists m, d, c, ce. auto.
Qed.

Lemma read_row_skipped `{L : Library} (y : Z) (tr : Row) :
  read_row y tr = Ok Skipped -> a_string tr = None.
Proof.
  unfold read_row. destruct (a_string tr) as [name|]; [|reflexivity].
  intros H. exfalso. inv_bind H. inv_bind H. inv_bind H.
  destruct (re_search center_re a1)
    as [[|g0 [|g1 [|g2 [|g3 [|g4 [|g5 gs]]]]]]|]; try discriminate.
  repeat inv_bind H. discriminate.
Qed.

Lemma read_rows_names `{L : Library} (y : Z) (rows : list Row) :
  forall (h : heap) (transits : list nat) (ns : list string)
         (h' : heap) (transits' : list nat),
    Forall2 (names y h) transits ns ->
    read_rows y rows h transits = Ok (Read h' transits') ->
    Forall2 (names y h') transits' (ns ++ omap a_string rows)%list.
Proof.
  induction rows as [|tr rows IH]; intros h ts ns h' ts' Hns H; cbn in H.
  - injection H as <- <-. cbn. rewrite app_nil_r. exact Hns.
  - inv_bind H. destruct a as [| |transit]; [|discriminate|].
    + apply read_row_skipped in Ha. cbn [omap list_omap]. rewrite Ha.
      eapply IH; eassumption.
    + apply read_row_well_read in Ha. destruct Ha as [Hname Hw].
      cbn [omap list_omap]. rewrite Hname.
      assert (Hfresh : h !! fresh (dom h) = None).
      { apply not_elem_of_dom. apply is_fresh. }
      replace (ns ++ object transit :: omap a_string rows)%list
        with ((ns ++ [object transit]) ++ omap a_string rows)%list
        by (rewrite <- app_assoc; reflexivity).
      eapply IH; [|exact H].
      apply Forall2_app.
      * eapply Forall2_impl; [exact Hns|].
        intros l name Hl. apply names_insert; assumption.
      * constructor; [|constructor].
        exists transit. rewrite lookup_insert_eq. auto.
Qed.

(** X5. When the table is read without incident, the list holds one
    candidate for each row that has a link, in the order of the rows, named
    by the text of the link; its center has both keys on a date that exists
    in the year of the run, its begin and its end have both keys or none, and
    it has no sample count. *)
Theorem read_rows_one_candidate_per_link `{L : Library}
    (y : Z) (rows : list Row) (h : heap) (transits : list nat) :
  read_rows y rows ∅ [] = Ok (Read h transits) ->
  Forall2 (names y h) transits (omap a_string rows).
Proof.
  intros H.
  exact (read_rows_names y rows ∅ [] [] h transits ltac:(constructor) H).
Qed.

(** ** The run, further *)

Lemma read_rows_stopped `{L : Library} (y : Z) (rows : list Row) :
  forall (h : heap) (transits : list nat) (message : string),
    read_rows y rows h transits = Ok (Stopped message) ->
    message = parse_message.
Proof.
  induction rows as [|tr rows IH]; intros h ts msg H; cbn in H.
  - discriminate.
  - inv_bind H. destruct a as [| |transit]; [eauto|congruence|eauto].
Qed.

Lemma on_date_renderable (y m d : Z) (c : datetime) (el : Z) :
  y < 9999 -> on_date y m d c ->
  renderable (mkMoment (Some c) (Some el)) = true.
Proof.
  intros Hy (Y & M & D & Hd & Hc). unfold renderable. cbn.
  rewrite Y, M, D, Hd, Hc. cbn. apply Z.ltb_lt. exact Hy.
Qed.

Lemma read_moment_renderable (y m d : Z) (mo : Moment) :
  y < 9999 -> read_moment y m d mo -> elevation mo <> None ->
  renderable mo = true.
Proof.
  intros Hy [->|(t & el & -> & Hd)] Hel.
  - contradiction Hel. reflexivity.
  - eapply on_date_renderable; eassumption.
Qed.

(** A candidate that passes the four filters has every key the output
    reads, but for the sample count. *)
Lemma admissible_renderable `{L : Library} (config : Config) (y : Z)
    (transit : Transit) :
  y < 9999 -> well_read y transit ->
  admissible config transit = Ok true ->
  renderable (begin transit) = true
  /\ renderable (center transit) = true
  /\ renderable (end_ transit) = true.
Proof.
  intros Hy (m & d & c & ce & _ & Hc & Hdc & Hb & He) Hadm.
  apply admissible_true_iff in Hadm. destruct Hadm as (_ & Hflip & _ & _).
  unfold filter_meridian_flip in Hflip.
  destruct (elevation (begin transit)) as [be|] eqn:Ebe; [|discriminate].
  cbn [getitem bind] in Hflip.
  destruct (elevation (center transit)) as [ce'|] eqn:Ece; [|discriminate].
  cbn [getitem bind] in Hflip.
  destruct (elevation (end_ transit)) as [ee|] eqn:Eee; [|discriminate].
  split; [|split].
  - eapply read_moment_renderable; [exact Hy|exact Hb|]. congruence.
  - rewrite Hc. eapply on_date_renderable; eassumption.
  - eapply read_moment_renderable; [exact Hy|exact He|]. congruence.
Qed.

Lemma print_rows_printable `{L : Library} (h : heap) (transits : list nat) :
  (forall l, l ∈ transits ->
             exists transit, h !! l = Some transit
                             /\ printable transit = true) ->
  raised (print_rows h transits) = None
  /\ length (stdout (print_rows h transits)) = length transits.
Proof.
  induction transits as [|l ts IH]; intros Hall; [split; reflexivity|].
  destruct (Hall l) as (t & Hl & Hp); [left|].
  destruct IH as [Hr Hlen].
  { intros l' Hl'. apply Hall. right. exact Hl'. }
  destruct (csv_data_printable t Hp)
    as (n & bt & be & ct & ce & et & ee & _ & _ & _ & _ & Hdata).
  cbn [print_rows]. unfold deref. rewrite Hl. cbn [bind]. rewrite Hdata.
  cbn. split; [exact Hr|]. f_equal. exact Hlen.
Qed.

(** X6. In a year before 9999 a run prints all or nothing: it ends with an
    exception and no output, or with the message of the unparsable center
    as its only output, or without exception after printing the header and
    one line for each candidate that passed the four filters.  Once the
    sample counts are there, the printing itself cannot fail. *)
Theorem main_prints_all_or_nothing `{L : Library}
    (config : Config) (y : Z) (rows : list Row) :
  y < 9999 ->
  (exists e, main config y rows = mkOutcome [] (Some e))
  \/ main config y rows
     = mkOutcome ["Could not parse string '{center_text}'"] None
  \/ exists (h : heap) (transits survivors : list nat) (lines : list string),
      read_rows y rows ∅ [] = Ok (Read h transits)
      /\ select (admissible config) h transits = Ok survivors
      /\ main config y rows = mkOutcome (labelled_header :: lines) None
      /\ length lines = length survivors.
Proof.
  intros Hy. unfold main.
  destruct (read_rows y rows ∅ []) as [[h ts|msg]|e] eqn:Hread;
    [|right; left|left; eauto].
  2:{ apply read_rows_stopped in Hread. rewrite Hread. reflexivity. }
  destruct (rank config h ts) as [[h' ranked]|e] eqn:Hrank; [|left; eauto].
  right. right.
  pose proof (read_rows_freshly_read y rows _ _ _ _ freshly_read_empty Hread)
    as (Hnd & _ & _).
  pose proof (read_rows_names y rows ∅ [] [] h ts ltac:(constructor) Hread)
    as Hnames.
  unfold rank in Hrank. inv_bind Hrank. inv_bind Hrank. inv_bind Hrank.
  injection Hrank as <- <-. rename a into survivors, a0 into h'.
  pose proof (select_sublist _ _ _ _ Ha) as Hsub.
  pose proof (sublist_NoDup _ _ Hnd Hsub) as Hnd'.
  destruct (enrich_frame _ _ _ Hnd' Ha0) as [_ Hin].
  pose proof (sort_transits_perm _ _ _ Ha1) as Hperm.
  assert (Hall : forall l, l ∈ a1 ->
                           exists transit, h' !! l = Some transit
                                           /\ printable transit = true).
  { intros l Hl. rewrite <- Hperm in Hl.
    destruct (Hin l Hl) as (t & n & Ht & _ & Ht').
    exists (set_n_samples n t). split; [exact Ht'|].
    apply (select_elem _ _ _ _ Ha) in Hl.
    destruct Hl as (Hlts & t' & Ht2 & Hadm).
    rewrite Ht in Ht2. injection Ht2 as <-.
    assert (Hw : well_read y t).
    { apply list_elem_of_lookup in Hlts. destruct Hlts as [i Hi].
      destruct (Forall2_lookup_l _ _ _ _ _ Hnames Hi)
        as (name & _ & t2 & Ht2 & _ & Hw).
      congruence. }
    destruct (admissible_renderable config y t Hy Hw Hadm) as (Rb & Rc & Re).
    unfold printable, set_n_samples. cbn. rewrite Rb, Rc, Re. reflexivity. }
  destruct (print_rows_printable h' a1 Hall) as [Hr Hlen].
  exists h, ts, survivors, (stdout (print_rows h' a1)).
  split; [reflexivity|]. split; [exact Ha|]. split.
  - unfold print_transits_csv. rewrite Hr. reflexivity.
  - rewrite Hlen. symmetry. apply Permutation_length. exact Hperm.
Qed.

(** ** What the patterns accept *)

Lemma string_app_assoc (a b c : string) : (a ++ b) ++ c = a ++ b ++ c.
Proof.
  induction a as [|x a IH]; [reflexivity|].
  cbn [String.append]. rewrite IH. reflexivity.
Qed.

Lemma strip_prefix_Some (p s rest : string) :
  strip_prefix p s = Some rest -> s = p ++ rest.
Proof.
  revert s. induction p as [|a p IH]; intros s H; cbn in H.
  - injection H as ->. reflexivity.
  - destruct s as [|b s]; [discriminate|].
    destruct (Ascii.eqb_spec a b) as [->|]; [|discriminate].
    cbn [String.append]. rewrite (IH _ H). reflexivity.
Qed.

Lemma attempts_Lit_inv (l s w rest : string) (g : list string) :
  In (w, g, rest) (attempts (Lit l) s) -> w = l /\ g = [] /\ s = l ++ rest.
Proof.
  cbn [attempts]. destruct (strip_prefix l s) as [r|] eqn:E; [|intros []].
  intros [H|[]]. injection H as <- <- <-.
  split; [reflexivity|]. split; [reflexivity|]. exact (strip_prefix_Some _ _ _ E).
Qed.

Lemma attempts_Seq_inv (r1 r2 : regex) (s w rest : string) (g : list string) :
  In (w, g, rest) (attempts (Seq r1 r2) s) ->
  exists w1 g1 s1 w2 g2,
    In (w1, g1, s1) (attempts r1 s) /\ In (w2, g2, rest) (attempts r2 s1)
    /\ w = w1 ++ w2 /\ g = (g1 ++ g2)%list.
Proof.
  rewrite attempts_Seq. intros H. apply in_flat_map in H as ([[w1 g1] s1] & H1 & H).
  apply in_map_iff in H as ([[w2 g2] s2] & Heq & H2).
  cbn in Heq. injection Heq as <- <- <-.
  exists w1, g1, s1, w2, g2. auto.
Qed.

Lemma attempts_Group_inv (r : regex) (s w rest : string) (g : list string) :
  In (w, g, rest) (attempts (Group r) s) ->
  exists g', In (w, g', rest) (attempts r s) /\ g = w :: g'.
Proof.
  rewrite attempts_Group. intros H.
  apply in_map_iff in H as ([[w' g'] s'] & Heq & H).
  injection Heq as <- <- <-. exists g'. auto.
Qed.

Lemma digits_1_2_inv (s w rest : string) (g : list string) :
  In (w, g, rest) (attempts digits_1_2 s) ->
  g = [] /\ s = w ++ rest /\ digits_between 1 2 w = true.
Proof.
  unfold digits_1_2. destruct s as [|c s]; [intros []|].
  cbn. destruct (is_digit c) eqn:Hc; [|intros []].
  destruct s as [|c' s].
  - cbn. intros [H|[]]. injection H as <- <- <-.
    unfold digits_between. cbn. rewrite Hc. auto.
  - cbn. destruct (is_digit c') eqn:Hc'; cbn.
    + intros [H|[H|[]]]; injection H as <- <- <-;
        unfold digits_between; cbn; rewrite Hc, ?Hc'; auto.
    + intros [H|[]]. injection H as <- <- <-.
      unfold digits_between. cbn. rewrite Hc. auto.
Qed.

Lemma digits_2_inv (s w rest : string) (g : list string) :
  In (w, g, rest) (attempts digits_2 s) ->
  g = [] /\ s = w ++ rest /\ digits_between 2 2 w = true.
Proof.
  unfold digits_2. destruct s as [|c s]; [intros []|].
  cbn. destruct (is_digit c) eqn:Hc; [|intros []].
  destruct s as [|c' s]; [intros []|].
  cbn. destruct (is_digit c') eqn:Hc'; cbn; [|intros []].
  intros [H|[]]. injection H as <- <- <-.
  unfold digits_between. cbn. rewrite Hc, Hc'. auto.
Qed.

Lemma elevation_re_inv (s w rest : string) (g : list string) :
  In (w, g, rest) (attempts elevation_re s) ->
  g = []
  /\ exists sign e,
      (sign = "" \/ sign = "-") /\ digits_between 1 2 e = true
      /\ w = sign ++ e /\ s = sign ++ e ++ rest.
Proof.
  unfold elevation_re. intros H.
  apply attempts_Seq_inv in H as (w1 & g1 & s1 & w2 & g2 & H1 & H2 & -> & ->).
  apply digits_1_2_inv in H2 as (-> & -> & He).
  cbn [attempts] in H1. apply in_app_or in H1 as [H1|[H1|[]]].
  - apply attempts_Lit_inv in H1 as (-> & -> & ->).
    split; [reflexivity|]. exists "-", w2. auto.
  - injection H1 as <- <- ->. split; [reflexivity|]. exists "", w2. auto.
Qed.

Lemma begin_end_re_inv (s w rest : string) (g : list string) :
  In (w, g, rest) (attempts begin_end_re s) ->
  exists h m sign e,
    digits_between 1 2 h = true /\ digits_between 2 2 m = true
    /\ (sign = "" \/ sign = "-") /\ digits_between 1 2 e = true
    /\ s = h ++ ":" ++ m ++ sign ++ e ++ degree ++ rest
    /\ g = [h; m; sign ++ e].
Proof.
  unfold begin_end_re. intros H.
  apply attempts_Seq_inv in H as (h & gh & s1 & w1 & g1 & Hh & H & -> & ->).
  apply attempts_Group_inv in Hh as (gh' & Hh & ->).
  apply digits_1_2_inv in Hh as (-> & -> & Hh).
  apply attempts_Seq_inv in H as (c & gc & s2 & w2 & g2 & Hc & H & -> & ->).
  apply attempts_Lit_inv in Hc as (-> & -> & ->).
  apply attempts_Seq_inv in H as (m & gm & s3 & w3 & g3 & Hm & H & -> & ->).
  apply attempts_Group_inv in Hm as (gm' & Hm & ->).
  apply digits_2_inv in Hm as (-> & -> & Hm).
  apply attempts_Seq_inv in H as (el & ge & s4 & w4 & g4 & He & H & -> & ->).
  apply attempts_Group_inv in He as (ge' & He & ->).
  apply elevation_re_inv in He as (-> & sign & e & Hs & He & -> & ->).
  apply attempts_Lit_inv in H as (-> & -> & ->).
  exists h, m, sign, e. repeat (split; [assumption|]).
  split; reflexivity.
Qed.

(** X7. The pattern of begin and end matches a text exactly when the text
    starts with one or two digits, a colon, two digits, an optional minus
    sign, one or two digits and the degree sign; the groups are then the
    hour, the minute and the signed elevation.  Any other text, a space
    after the minute or a third digit of the elevation among them, matches
    nothing. *)
Theorem begin_end_re_matches_iff (text : string) (g : list string) :
  re_search begin_end_re text = Some g
  <-> exists h m sign e rest,
        digits_between 1 2 h = true /\ digits_between 2 2 m = true
        /\ (sign = "" \/ sign = "-") /\ digits_between 1 2 e = true
        /\ text = h ++ ":" ++ m ++ sign ++ e ++ degree ++ rest
        /\ g = [h; m; sign ++ e].
Proof.
  split.
  - unfold re_search.
    destruct (attempts begin_end_re text) as [|[[w g'] rest] more] eqn:E;
      [discriminate|].
    intros H. injection H as ->.
    destruct (begin_end_re_inv text w rest g) as (h & m & sign & e & H).
    { rewrite E. left. reflexivity. }
    exists h, m, sign, e, rest. exact H.
  - intros (h & m & sign & e & rest & Hh & Hm & Hs & He & -> & ->).
    unfold re_search.
    rewrite (begin_end_attempts h m sign e rest Hh Hm Hs He). reflexivity.
Qed.

(** X8. The pattern of the center matches a text exactly when the text
    starts with two digits, a dot, two digits, a dot and a space and goes
    on as a begin or end text does; the groups are then the day, the month,
    the hour, the minute and the signed elevation.  A day or a month of one
    digit matches nothing. *)
Theorem center_re_matches_iff (text : string) (g : list string) :
  re_search center_re text = Some g
  <-> exists d mo h m sign e rest,
        digits_between 2 2 d = true /\ digits_between 2 2 mo = true
        /\ digits_between 1 2 h = true /\ digits_between 2 2 m = true
        /\ (sign = "" \/ sign = "-") /\ digits_between 1 2 e = true
        /\ text = d ++ "." ++ mo ++ ". "
                  ++ h ++ ":" ++ m ++ sign ++ e ++ degree ++ rest
        /\ g = [d; mo; h; m; sign ++ e].
Proof.
  split.
  - unfold re_search.
    destruct (attempts center_re text) as [|[[w g'] rest] more] eqn:E;
      [discriminate|].
    intros H. injection H as ->.
    assert (Hin : In (w, g, rest) (attempts center_re text))
      by (rewrite E; left; reflexivity).
    clear E. unfold center_re in Hin.
    apply attempts_Seq_inv in Hin
      as (d & gd & s1 & w1 & g1 & Hd & H & -> & ->).
    apply attempts_Group_inv in Hd as (gd' & Hd & ->).
    apply digits_2_inv in Hd as (-> & -> & Hd).
    apply attempts_Seq_inv in H as (c & gc & s2 & w2 & g2 & Hc & H & -> & ->).
    apply attempts_Lit_inv in Hc as (-> & -> & ->).
    apply attempts_Seq_inv in H as (mo & gm & s3 & w3 & g3 & Hm & H & -> & ->).
    apply attempts_Group_inv in Hm as (gm' & Hm & ->).
    apply digits_2_inv in Hm as (-> & -> & Hm).
    apply attempts_Seq_inv in H as (c' & gc' & s4 & w4 & g4 & Hc & H & -> & ->).
    apply attempts_Lit_inv in Hc as (-> & -> & ->).
    apply begin_end_re_inv in H
      as (h & m & sign & e & Hh & Hmi & Hs & He & -> & ->).
    exists d, mo, h, m, sign, e, rest. repeat (split; [assumption|]).
    split; reflexivity.
  - intros (d & mo & h & m & sign & e & rest
            & Hd & Hmo & Hh & Hm & Hs & He & -> & ->).
    unfold re_search.
    rewrite (center_attempts d mo _ _ _ rest Hd Hmo
               (begin_end_attempts h m sign e rest Hh Hm Hs He)).
    reflexivity.
Qed.

(** ** Configured times and the night *)

Lemma filter_time_aware `{L : Library}
    (transit : Transit) (config : Config) (b e : datetime)
    (t_min t_max : daytime) (o_min o_max : Z) :
  time (begin transit) = Some b ->
  time (end_ transit) = Some e ->
  valid_clock (hour b) (minute b) = true ->
  valid_clock (hour e) (minute e) = true ->
  fromisoformat (min_start_time config) = Ok t_min ->
  fromisoformat (max_end_time config) = Ok t_max ->
  valid_daytime t_min = true ->
  valid_daytime t_max = true ->
  utcoffset t_min = Some o_min ->
  utcoffset t_max = Some o_max ->
  filter_time transit config
  = Ok ((utc_microsecond t_min o_min <=? clock_microsecond b)
        && (clock_microsecond e <=? utc_microsecond t_max o_max)).
Proof.
  intros Hb He Vb Ve Hmin Hmax Vmin Vmax Omin Omax.
  unfold filter_time. rewrite Hmin, Hmax, Hb, He. cbn [bind getitem].
  unfold daytime_ge, daytime_le.
  rewrite (daytime_compare_aware (timetz b) t_min 0 o_min
             (valid_daytime_timetz b Vb) Vmin eq_refl Omin).
  rewrite (daytime_compare_aware (timetz e) t_max 0 o_max
             (valid_daytime_timetz e Ve) Vmax eq_refl Omax).
  rewrite !utc_microsecond_timetz. cbn [bind].
  destruct (Z.compare_spec (clock_microsecond b) (utc_microsecond t_min o_min));
    cbn [bind];
    destruct (Z.compare_spec (clock_microsecond e)
                             (utc_microsecond t_max o_max));
    cbn [bind]; symmetry; f_equal;
    repeat first [apply andb_true_iff; split | apply Z.leb_le; lia
                 | apply andb_false_iff; (left + right); apply Z.leb_gt; lia].
Qed.

(** X9. A configured window that runs over midnight, its end an earlier
    instant of the day than its start, keeps only candidates whose end
    clock is earlier than their begin clock: those that cross midnight UTC
    themselves.  A transit that lies in the night but on one side of
    midnight is discarded. *)
Theorem filter_time_window_over_midnight `{L : Library}
    (transit : Transit) (config : Config) (b e : datetime)
    (t_min t_max : daytime) (o_min o_max : Z) :
  time (begin transit) = Some b ->
  time (end_ transit) = Some e ->
  valid_clock (hour b) (minute b) = true ->
  valid_clock (hour e) (minute e) = true ->
  fromisoformat (min_start_time config) = Ok t_min ->
  fromisoformat (max_end_time config) = Ok t_max ->
  valid_daytime t_min = true ->
  valid_daytime t_max = true ->
  utcoffset t_min = Some o_min ->
  utcoffset t_max = Some o_max ->
  utc_microsecond t_max o_max < utc_microsecond t_min o_min ->
  (clock_microsecond b <= clock_microsecond e ->
   filter_time transit config = Ok false)
  /\ (filter_time transit config = Ok true ->
      clock_microsecond e < clock_microsecond b).
Proof.
  intros Hb He Vb Ve Hmin Hmax Vmin Vmax Omin Omax Hover.
  rewrite (filter_time_aware transit config b e t_min t_max o_min o_max)
    by assumption.
  split.
  - intros Hle. f_equal. apply andb_false_iff.
    destruct (Z.leb_spec (utc_microsecond t_min o_min) (clock_microsecond b));
      [right; apply Z.leb_gt; lia|left; reflexivity].
  - intros H. injection H as H. apply andb_true_iff in H as [H1 H2].
    apply Z.leb_le in H1, H2. lia.
Qed.

(** X10. With a configured latest end that carries no UTC offset the time
    filter never keeps a candidate: it answers [False] for a begin before
    the earliest start and raises [TypeError] at the comparison of the end
    otherwise; with an earliest start that carries none it raises
    [TypeError] at once. *)
Theorem filter_time_zone_less_maximum `{L : Library}
    (transit : Transit) (config : Config) (b e : datetime)
    (t_min t_max : daytime) :
  time (begin transit) = Some b ->
  time (end_ transit) = Some e ->
  valid_clock (hour b) (minute b) = true ->
  fromisoformat (min_start_time config) = Ok t_min ->
  fromisoformat (max_end_time config) = Ok t_max ->
  valid_daytime t_min = true ->
  utcoffset t_max = None ->
  filter_time transit config
  = match utcoffset t_min with
    | None => Raise TypeError
    | Some o_min =>
        if clock_microsecond b <? utc_microsecond t_min o_min then Ok false
        else Raise TypeError
    end.
Proof.
  intros Hb He Vb Hmin Hmax Vmin Omax.
  destruct (utcoffset t_min) as [o_min|] eqn:Omin.
  - unfold filter_time. rewrite Hmin, Hmax, Hb, He. cbn [bind getitem].
    unfold daytime_ge, daytime_le.
    rewrite (daytime_compare_aware (timetz b) t_min 0 o_min
               (valid_daytime_timetz b Vb) Vmin eq_refl Omin).
    rewrite utc_microsecond_timetz. cbn [bind].
    unfold daytime_compare at 1. cbn [utcoffset timetz]. rewrite Omax.
    destruct (Z.compare_spec (clock_microsecond b)
                             (utc_microsecond t_min o_min));
      destruct (Z.ltb_spec (clock_microsecond b)
                           (utc_microsecond t_min o_min));
      try lia; reflexivity.
  - exact (filter_time_naive_min transit config b e t_min t_max
             Hb He Hmin Hmax Omin).
Qed.

(** ** The chain of filters *)

Lemma select_and_then_inv (p q : Transit -> result bool) (h : heap) :
  forall transits l2,
    select (and_then p q) h transits = Ok l2 ->
    exists l1, select p h transits = Ok l1 /\ select q h l1 = Ok l2.
Proof.
  induction transits as [|l ts IH]; intros l2 H; cbn in H.
  - injection H as <-. exists []. split; reflexivity.
  - inv_bind H. inv_bind H. inv_bind H. injection H as <-.
    destruct (IH _ Ha1) as (l1 & Hp & Hq).
    unfold and_then in Ha0. inv_bind Ha0.
    cbn [select]. rewrite Ha. cbn [bind]. rewrite Ha2. cbn [bind].
    rewrite Hp. cbn [bind].
    destruct a2.
    + exists (l :: l1). split; [reflexivity|].
      cbn [select]. rewrite Ha. cbn [bind]. rewrite Ha0. cbn [bind].
      rewrite Hq. reflexivity.
    + injection Ha0 as <-. exists l1. split; [reflexivity|exact Hq].
Qed.

(** X11. The four nested lazy filters, drawn through at once by [list],
    produce a list exactly when filtering the whole list by depth, the
    result by the meridian flip, that result by the time window and that
    one by the elevation produces it: no predicate is asked about a
    candidate an earlier one discarded, and none is spared a candidate the
    earlier ones kept. *)
Theorem lazy_filters_as_stages `{L : Library} (config : Config) (h : heap)
    (transits survivors : list nat) :
  select (admissible config) h transits = Ok survivors
  <-> exists l1 l2 l3,
        select (fun t => filter_depth t config) h transits = Ok l1
        /\ select filter_meridian_flip h l1 = Ok l2
        /\ select (fun t => filter_time t config) h l2 = Ok l3
        /\ select (fun t => filter_elevation t config) h l3 = Ok survivors.
Proof.
  split.
  - intros H.
    change (admissible config)
      with (and_then (fun t => filter_depth t config)
              (and_then filter_meridian_flip
                 (and_then (fun t => filter_time t config)
                           (fun t => filter_elevation t config)))) in H.
    apply select_and_then_inv in H as (l1 & H1 & H).
    apply select_and_then_inv in H as (l2 & H2 & H).
    apply select_and_then_inv in H as (l3 & H3 & H).
    exists l1, l2, l3. auto.
  - intros (l1 & l2 & l3 & H1 & H2 & H3 & H4).
    exact (select_admissible_stages config h transits l1 l2 l3 survivors
             H1 H2 H3 H4).
Qed.

(** X12. When the filters produce a list, a candidate is on it exactly
    when it was read from the table and each of the four predicates
    answers [True] for it. *)
Theorem survivors_pass_the_four_filters `{L : Library} (config : Config)
    (h : heap) (transits survivors : list nat) :
  select (admissible config) h transits = Ok survivors ->
  forall l,
    l ∈ survivors
    <-> l ∈ transits
        /\ exists transit,
            h !! l = Some transit
            /\ filter_depth transit config = Ok true
            /\ filter_meridian_flip transit = Ok true
            /\ filter_time transit config = Ok true
            /\ filter_elevation transit config = Ok true.
Proof.
  intros H l. rewrite (select_elem _ _ _ _ H l).
  split; intros (Hl & t & Ht & Hk); (split; [exact Hl|]); exists t;
    (split; [exact Ht|]); apply admissible_true_iff; exact Hk.
Qed.

Lemma select_raises (keep : Transit -> result bool) (h : heap)
    (l : nat) (transit : Transit) (e : exn) (rest : list nat) :
  h !! l = Some transit -> keep transit = Raise e ->
  forall good kept,
    select keep h good = Ok kept ->
    select keep h (good ++ l :: rest)%list = Raise e.
Proof.
  intros Hl Hk. induction good as [|g good IH]; intros kept H.
  - cbn [app select]. unfold deref. rewrite Hl. cbn [bind]. rewrite Hk.
    reflexivity.
  - cbn in H. inv_bind H. inv_bind H. inv_bind H.
    cbn [app select]. rewrite Ha. cbn [bind]. rewrite Ha0. cbn [bind].
    rewrite (IH _ Ha1). reflexivity.
Qed.

(** X13. A candidate whose begin cell was not read and whose depth
    suffices ends the run: the second filter raises [KeyError] when it
    reaches it, and nothing is printed, whatever the rows before and after
    it hold. *)
Theorem main_raises_on_unread_begin `{L : Library}
    (config : Config) (y : Z) (rows : list Row) (h : heap)
    (good rest kept : list nat) (l : nat) (transit : Transit) :
  read_rows y rows ∅ [] = Ok (Read h (good ++ l :: rest)%list) ->
  select (admissible config) h good = Ok kept ->
  h !! l = Some transit ->
  elevation (begin transit) = None ->
  float_ge (mag_depth transit) (min_mag_depth config) = true ->
  main config y rows = mkOutcome [] (Some KeyError).
Proof.
  intros Hread Hgood Hl Hb Hdeep.
  assert (Hk : admissible config transit = Raise KeyError).
  { unfold admissible, filter_depth, filter_meridian_flip.
    rewrite Hdeep, Hb. reflexivity. }
  unfold main, rank. rewrite Hread.
  rewrite (select_raises _ h l transit KeyError rest Hl Hk good kept Hgood).
  reflexivity.
Qed.

(** ** The sample counts *)

Lemma enrich_raises `{L : Library} (l : nat) (e : exn) (rest : list nat) :
  forall (good : list nat) (h : heap),
    (forall g, g ∈ good ->
               exists transit n,
                 h !! g = Some transit
                 /\ get_database_sample_number (object transit) = Ok n) ->
    (exists transit,
        h !! l = Some transit
        /\ get_database_sample_number (object transit) = Raise e) ->
    enrich h (good ++ l :: rest)%list = Raise e.
Proof.
  induction good as [|g good IH]; intros h Hgood (t & Hl & He).
  - cbn [app enrich]. unfold deref. rewrite Hl. cbn [bind]. rewrite He.
    reflexivity.
  - destruct (Hgood g ltac:(left)) as (tg & n & Hg & Hn).
    cbn [app enrich]. unfold deref. rewrite Hg. cbn [bind]. rewrite Hn.
    cbn [bind]. apply IH.
    + intros g' Hg'. destruct (decide (g' = g)) as [->|Hne].
      * exists (set_n_samples n tg), n. rewrite lookup_insert_eq.
        split; [reflexivity|exact Hn].
      * rewrite lookup_insert_ne by congruence.
        apply Hgood. right. exact Hg'.
    + destruct (decide (l = g)) as [->|Hne].
      * exists (set_n_samples n tg). rewrite lookup_insert_eq.
        split; [reflexivity|]. cbn. congruence.
      * exists t. rewrite lookup_insert_ne by congruence. auto.
Qed.

(** X14. When the request for the sample count of one surviving candidate
    fails, the run ends with that exception and prints nothing: the counts
    already fetched for the candidates before it are lost with it. *)
Theorem main_fails_with_the_database `{L : Library}
    (config : Config) (y : Z) (rows : list Row) (h : heap)
    (transits good rest : list nat) (l : nat) (transit : Transit) (e : exn) :
  read_rows y rows ∅ [] = Ok (Read h transits) ->
  select (admissible config) h transits = Ok (good ++ l :: rest)%list ->
  (forall g, g ∈ good ->
             exists candidate n,
               h !! g = Some candidate
               /\ get_database_sample_number (object candidate) = Ok n) ->
  h !! l = Some transit ->
  get_database_sample_number (object transit) = Raise e ->
  main config y rows = mkOutcome [] (Some e).
Proof.
  intros Hread Hsel Hgood Hl He. unfold main, rank.
  rewrite Hread, Hsel. cbn [bind].
  rewrite (enrich_raises l e rest good h Hgood); [reflexivity|].
  exists transit. auto.
Qed.

Lemma enrich_with_database (L : Library) (answer : string -> result Z) :
  forall (transits : list nat) (h : heap),
    (forall l transit,
        l ∈ transits -> h !! l = Some transit ->
        answer (object transit)
        = get_database_sample_number (Library := L) (object transit)) ->
    enrich (L := with_database L answer) h transits
    = enrich (L := L) h transits.
Proof.
  induction transits as [|l ts IH]; intros h H; [reflexivity|].
  cbn [enrich]. unfold deref.
  destruct (h !! l) as [t|] eqn:Hl; [|reflexivity]. cbn [bind].
  change (get_database_sample_number (Library := with_database L answer)
            (object t))
    with (answer (object t)).
  rewrite (H l t ltac:(left) Hl).
  destruct (get_database_sample_number (object t)) as [n|e];
    [|reflexivity].
  cbn [bind]. apply IH. intros l' t' Hl' Ht'.
  destruct (decide (l' = l)) as [->|Hne].
  - rewrite lookup_insert_eq in Ht'. injection Ht' as <-.
    exact (H l t ltac:(left) Hl).
  - rewrite lookup_insert_ne in Ht' by congruence.
    apply (H l' t'); [right; exact Hl'|exact Ht'].
Qed.

(** X15. The ranking depends on the transit database through the
    surviving candidates only: with a database that answers the same for
    them and anything for the others, for the discarded candidates a
    failure too, the ranking gives the same store and the same list. *)
Theorem rank_asks_for_survivors_only (L : Library)
    (answer : string -> result Z) (config : Config) (h : heap)
    (transits survivors : list nat) :
  select (admissible (L := L) config) h transits = Ok survivors ->
  (forall l transit,
      l ∈ survivors -> h !! l = Some transit ->
      answer (object transit)
      = get_database_sample_number (Library := L) (object transit)) ->
  rank (L := with_database L answer) config h transits
  = rank (L := L) config h transits.
Proof.
  intros Hsel Hsame. unfold rank.
  change (select (admissible (L := with_database L answer) config) h transits)
    with (select (admissible (L := L) config) h transits).
  rewrite Hsel. cbn [bind].
  rewrite (enrich_with_database L answer survivors h Hsame). reflexivity.
Qed.

(** ** The request for the sample count *)

Lemma code_points_nonempty (c : ascii) (s : string) :
  code_points (String c s) <> [].
Proof.
  cbn [code_points]. destruct (starts_with_continuation s); [|discriminate].
  destruct (code_points s); discriminate.
Qed.

(** The characters of a text followed by a text that starts a character. *)
Lemma code_points_app (a b : string) :
  starts_with_continuation b = false ->
  code_points (a ++ b) = (code_points a ++ code_points b)%list.
Proof.
  intros Hb. induction a as [|c a IH]; [reflexivity|].
  cbn [String.append code_points].
  destruct a as [|c' a'].
  - cbn [String.append code_points starts_with_continuation app].
    rewrite Hb. reflexivity.
  - change (starts_with_continuation (String c' a' ++ b))
      with (starts_with_continuation (String c' a')).
    rewrite IH.
    destruct (starts_with_continuation (String c' a')); [|reflexivity].
    destruct (code_points (String c' a')) as [|g gs] eqn:E; [|reflexivity].
    exfalso. exact (code_points_nonempty c' a' E).
Qed.

Lemma concat_code_points (s : string) : String.concat "" (code_points s) = s.
Proof.
  assert (Hcat : forall g gs,
             String.concat "" (g :: gs) = g ++ String.concat "" gs).
  { intros g [|g' gs]; cbn [String.concat].
    - induction g as [|c g IH]; [reflexivity|]. cbn. f_equal. exact IH.
    - reflexivity. }
  induction s as [|c s IH]; [reflexivity|].
  cbn [code_points]. destruct (starts_with_continuation s).
  - destruct (code_points s) as [|g gs] eqn:E.
    + cbn in IH. subst s. reflexivity.
    + rewrite Hcat in *. cbn [String.append]. f_equal. exact IH.
  - rewrite Hcat. cbn [String.append]. f_equal. exact IH.
Qed.

Lemma split_star_planet (star sep planet : string) :
  is_character sep -> is_character planet ->
  all_but_last_two (star ++ sep ++ planet) = star
  /\ last_character (star ++ sep ++ planet) = Ok planet.
Proof.
  intros [Hs1 Hs2] [Hp1 Hp2].
  assert (Hsp : starts_with_continuation (sep ++ planet) = false).
  { destruct sep as [|c sep]; [discriminate Hs2|exact Hs1]. }
  assert (Hcp : code_points (star ++ sep ++ planet)
                = (code_points star ++ [sep; planet])%list).
  { rewrite (code_points_app star _ Hsp), (code_points_app sep _ Hp1).
    rewrite Hs2, Hp2. reflexivity. }
  unfold all_but_last_two, last_character. rewrite Hcp. split.
  - rewrite length_app. cbn [length].
    replace (length (code_points star) + 2 - 2)%nat
      with (length (code_points star) + 0)%nat by lia.
    rewrite firstn_app_2. cbn [firstn]. rewrite app_nil_r.
    apply concat_code_points.
  - rewrite last_app. reflexivity.
Qed.

(** X16. For a name made of a star, one character (whichever) and a planet
    of one character, the request goes to the address built from that star
    and that planet; the character between them is dropped unread. *)
Theorem database_sample_number_splits
    (request : string -> result Z) (planet_base_url star sep planet : string) :
  is_character sep -> is_character planet ->
  database_sample_number request planet_base_url (star ++ sep ++ planet)
  = request (sample_number_url planet_base_url star planet).
Proof.
  intros Hs Hp. unfold database_sample_number.
  destruct (split_star_planet star sep planet Hs Hp) as [-> ->].
  reflexivity.
Qed.

(** X17. A name without characters makes no request: taking its last
    character raises [IndexError].  A name of one or two characters asks
    for its last character as the planet of a star without name. *)
Theorem database_sample_number_short_names
    (request : string -> result Z) (planet_base_url c planet : string) :
  is_character c -> is_character planet ->
  database_sample_number request planet_base_url "" = Raise IndexError
  /\ database_sample_number request planet_base_url planet
     = request (sample_number_url planet_base_url "" planet)
  /\ database_sample_number request planet_base_url (c ++ planet)
     = request (sample_number_url planet_base_url "" planet).
Proof.
  intros Hc Hp. split; [reflexivity|]. split.
  - unfold database_sample_number, all_but_last_two, last_character.
    destruct Hp as [_ ->]. reflexivity.
  - unfold database_sample_number.
    destruct (split_star_planet "" c planet Hc Hp) as [H1 H2].
    cbn [String.append] in H1, H2. rewrite H1, H2. reflexivity.
Qed.

Lemma unquote_quote_byte (c : ascii) (s : string) :
  unquote (quote_byte c ++ s) = String c (unquote s).
Proof.
  destruct c as [[] [] [] [] [] [] [] []]; reflexivity.
Qed.

Lemma unquote_quote_plus (s : string) : unquote (quote_plus s) = s.
Proof.
  induction s as [|c s IH]; [reflexivity|].
  cbn [quote_plus]. rewrite unquote_quote_byte, IH. reflexivity.
Qed.

Lemma contains_app (c : ascii) (a b : string) :
  contains c (a ++ b) = contains c a || contains c b.
Proof.
  induction a as [|x a IH]; [reflexivity|].
  cbn [String.append contains]. rewrite IH. apply orb_assoc.
Qed.

Lemma quote_plus_no_ampersand (s : string) : contains "&" (quote_plus s) = false.
Proof.
  induction s as [|c s IH]; [reflexivity|].
  cbn [quote_plus]. rewrite contains_app, IH, orb_false_r.
  destruct c as [[] [] [] [] [] [] [] []]; reflexivity.
Qed.

Lemma append_inv_head (p a b : string) : p ++ a = p ++ b -> a = b.
Proof.
  induction p as [|c p IH]; cbn [String.append]; [tauto|].
  intros H. injection H as H. exact (IH H).
Qed.

(** Two texts cut at their first [&] are equal piece by piece. *)
Lemma cut_at_ampersand (a a' b b' : string) :
  contains "&" a = false -> contains "&" a' = false ->
  a ++ String "&" b = a' ++ String "&" b' -> a = a' /\ b = b'.
Proof.
  revert a'. induction a as [|c a IH]; intros [|c' a'] Ha Ha' H;
    cbn [String.append contains] in *.
  - injection H as ->. split; reflexivity.
  - injection H as <- _. discriminate Ha'.
  - injection H as -> _. discriminate Ha.
  - injection H as -> H.
    apply orb_false_iff in Ha as [_ Ha]. apply orb_false_iff in Ha' as [_ Ha'].
    destruct (IH a' Ha Ha' H) as [-> ->]. split; reflexivity.
Qed.

(** X18. The address requested for a star and a planet determines both:
    two names that differ are never looked up at the same address, whatever
    characters they hold. *)
Theorem sample_number_url_injective
    (planet_base_url star planet star' planet' : string) :
  sample_number_url planet_base_url star planet
  = sample_number_url planet_base_url star' planet' ->
  star = star' /\ planet = planet'.
Proof.
  unfold sample_number_url, urlencode. cbn [map join fst snd].
  intros H. apply append_inv_head in H.
  change (quote_plus "STARNAME") with "STARNAME" in H.
  change (quote_plus "PLANET") with "PLANET" in H.
  cbn [String.append] in H. injection H as H.
  apply cut_at_ampersand in H; try apply quote_plus_no_ampersand.
  destruct H as [Hs Hp]. injection Hp as Hp.
  apply (f_equal unquote) in Hs, Hp.
  rewrite !unquote_quote_plus in Hs, Hp. split; assumption.
Qed.

(** ** The two outputs *)

Lemma print_rows_app `{L : Library} (h : heap) (a b : list nat) :
  raised (print_rows h a) = None ->
  print_rows h (a ++ b)%list
  = mkOutcome (stdout (print_rows h a) ++ stdout (print_rows h b))%list
              (raised (print_rows h b)).
Proof.
  induction a as [|l a IH]; intros Hr; cbn [app print_rows].
  - destruct (print_rows h b); reflexivity.
  - cbn [print_rows] in Hr.
    destruct (let* transit := deref h l in csv_data transit) as [data|e];
      [|discriminate].
    cbn in Hr. rewrite (IH Hr). reflexivity.
Qed.

(** X19. Given a list in which a transit without sample count follows
    transits that have all their keys, the delimited output prints the header
    and the lines of the transits before it and then ends with [KeyError];
    the transits after it are not printed. *)
Theorem print_transits_csv_stops_without_count `{L : Library}
    (h : heap) (good rest : list nat) (l : nat) (transit : Transit) :
  (forall g, g ∈ good ->
             exists t, h !! g = Some t /\ printable t = true) ->
  h !! l = Some transit ->
  n_samples transit = None ->
  exists lines,
    print_transits_csv h (good ++ l :: rest)%list
    = mkOutcome (labelled_header :: lines) (Some KeyError)
    /\ print_transits_csv h good = mkOutcome (labelled_header :: lines) None
    /\ length lines = length good.
Proof.
  intros Hgood Hl Hn.
  destruct (print_rows_printable h good Hgood) as [Hr Hlen].
  exists (stdout (print_rows h good)).
  unfold print_transits_csv. rewrite (print_rows_app h good _ Hr), Hr.
  cbn [print_rows stdout raised]. unfold deref. rewrite Hl. cbn [bind].
  unfold csv_data. rewrite Hn. cbn [getitem bind stdout raised].
  rewrite app_nil_r. auto.
Qed.

Lemma moment_line_has_keys (m : Moment) :
  has_keys m = true -> exists line, moment_line m = Ok line.
Proof.
  unfold has_keys, moment_line.
  destruct (time m), (elevation m); try discriminate. cbn. eauto.
Qed.

Lemma print_transit_has_moments `{L : Library} (transit : Transit) :
  has_moments transit = true ->
  raised (print_transit transit) = None
  /\ length (stdout (print_transit transit))
     = match n_samples transit with Some _ => 7%nat | None => 6%nat end.
Proof.
  unfold has_moments. intros H.
  apply andb_true_iff in H. destruct H as [H He].
  apply andb_true_iff in H. destruct H as [Hb Hc].
  destruct (moment_line_has_keys _ Hb) as [b Eb].
  destruct (moment_line_has_keys _ Hc) as [c Ec].
  destruct (moment_line_has_keys _ He) as [e Ee].
  unfold print_transit. rewrite Eb, Ec, Ee.
  destruct (n_samples transit); split; reflexivity.
Qed.

(** X20. The readable output needs no sample count: for transits whose three
    moments have both keys it never raises, and it prints six lines for a
    transit without sample count and seven for one with. *)
Theorem print_transits_line_count `{L : Library}
    (h : heap) (transits : list nat) :
  (forall l, l ∈ transits ->
             exists transit, h !! l = Some transit
                             /\ has_moments transit = true) ->
  raised (print_transits h transits) = None
  /\ length (stdout (print_transits h transits))
     = (6 * length transits + length (List.filter (counted h) transits))%nat.
Proof.
  induction transits as [|l ts IH]; intros Hall; [split; reflexivity|].
  destruct (Hall l) as (t & Hl & Hm); [left|].
  destruct IH as [Hr Hlen].
  { intros l' Hl'. apply Hall. right. exact Hl'. }
  destruct (print_transit_has_moments t Hm) as [Hrt Hlt].
  cbn [print_transits]. unfold deref. rewrite Hl, Hrt.
  cbn [stdout raised]. split; [exact Hr|].
  rewrite length_app, Hlt, Hlen. cbn [List.filter length].
  unfold counted at 2. rewrite Hl.
  destruct (n_samples t); cbn [length]; lia.
Qed.

(** X21. A transit whose begin has no keys stops the readable output with
    [KeyError] after its object, its sample count if it has one, and its
    depth have been printed, behind the full output of the transits before
    it. *)
Theorem print_transits_stops_at_empty_begin `{L : Library}
    (h : heap) (good rest : list nat) (l : nat) (transit : Transit) :
  (forall g, g ∈ good ->
             exists t, h !! g = Some t /\ has_moments t = true) ->
  h !! l = Some transit ->
  time (begin transit) = None ->
  print_transits h (good ++ l :: rest)%list
  = mkOutcome
      (stdout (print_transits h good)
       ++ object transit
          :: match n_samples transit with
             | Some n => [str_int n]
             | None => []
             end
          ++ [str_float (mag_depth transit)])%list
      (Some KeyError).
Proof.
  intros Hgood Hl Hb.
  induction good as [|g good IH]; cbn [app print_transits].
  - unfold deref. rewrite Hl. unfold print_transit, moment_line.
    rewrite Hb. reflexivity.
  - destruct (Hgood g) as (t & Hg & Hm); [left|].
    destruct (print_transit_has_moments t Hm) as [Hrt _].
    unfold deref. rewrite Hg, Hrt. rewrite IH.
    + cbn [stdout raised]. rewrite <- app_assoc. reflexivity.
    + intros g' Hg'. apply Hgood. right. exact Hg'.
Qed.

(** ** Numbers and their texts *)







(** * Further examples *)

Lemma main_skips_rows_without_link_witness :
  a_string (mkRow None ["OBJECT"]) = None
  /\ main (L := example_library) example_config 2023
          ([row_hat_p_1] ++ mkRow None ["OBJECT"] :: [row_unknown])%list
     = main (L := example_library) example_config 2023
            ([row_hat_p_1] ++ [row_unknown])%list.
Proof.
  split; [reflexivity|].
  apply (main_skips_rows_without_link (L := example_library)). reflexivity.
Defined.

Lemma main_stops_at_unparsable_center_witness :
  read_rows (L := example_library) 2023 [row_hat_p_1] ∅ []
  = Ok (Read one_row_store one_row_transits)
  /\ re_search center_re "n/a" = None
  /\ main (L := example_library) example_config 2023
          ([row_hat_p_1] ++ row_bad_center :: [row_hat_p_1])%list
     = mkOutcome ["Could not parse string '{center_text}'"] None.
Proof.
  split; [vm_compute; reflexivity|]. split; [reflexivity|].
  apply (main_stops_at_unparsable_center (L := example_library)
           example_config 2023 [row_hat_p_1] [row_hat_p_1] row_bad_center
           one_row_store one_row_transits "Qatar-1 b" "0.5" "n/a" float_0_5);
    vm_compute; reflexivity.
Defined.

Lemma main_short_row_raises_witness :
  read_rows (L := example_library) 2023 [row_hat_p_1] ∅ []
  = Ok (Read one_row_store one_row_transits)
  /\ (length (tds row_short) < 7)%nat
  /\ main (L := example_library) example_config 2023
          ([row_hat_p_1] ++ row_short :: [row_hat_p_1])%list
     = mkOutcome [] (Some IndexError).
Proof.
  split; [vm_compute; reflexivity|]. split; [cbn; lia|].
  apply (main_short_row_raises (L := example_library)
           example_config 2023 [row_hat_p_1] [row_hat_p_1] row_short
           one_row_store one_row_transits "HAT-P-1 b");
    [vm_compute; reflexivity|reflexivity|cbn; lia].
Defined.

Lemma extractStartEndTimes_out_of_range_witness :
  valid_date 2023 6 8 && valid_clock (decimal "24") (decimal "00") = false
  /\ extractStartEndTimes 2023 6 8 hat_p_1
       ("24" ++ ":" ++ "00" ++ "" ++ "30" ++ degree ++ ",NE") Kbegin
     = Raise ValueError.
Proof.
  split; [reflexivity|].
  apply extractStartEndTimes_out_of_range;
    [reflexivity|reflexivity|left; reflexivity|reflexivity|reflexivity].
Defined.

Lemma read_rows_one_candidate_per_link_witness :
  read_rows (L := example_library) 2023 example_rows ∅ []
  = Ok (Read example_store example_transits)
  /\ Forall2 (names 2023 example_store) example_transits
             (omap a_string example_rows).
Proof.
  assert (H : read_rows (L := example_library) 2023 example_rows ∅ []
              = Ok (Read example_store example_transits))
    by (vm_compute; reflexivity).
  split; [exact H|].
  exact (read_rows_one_candidate_per_link (L := example_library)
           2023 example_rows example_store example_transits H).
Defined.

Lemma main_prints_all_or_nothing_witness :
  2023 < 9999
  /\ ((exists e, main (L := example_library) example_config 2023 example_rows
                 = mkOutcome [] (Some e))
      \/ main (L := example_library) example_config 2023 example_rows
         = mkOutcome ["Could not parse string '{center_text}'"] None
      \/ exists (h : heap) (transits survivors : list nat)
                (lines : list string),
          read_rows (L := example_library) 2023 example_rows ∅ []
          = Ok (Read h transits)
          /\ select (admissible (L := example_library) example_config)
                    h transits = Ok survivors
          /\ main (L := example_library) example_config 2023 example_rows
             = mkOutcome (labelled_header :: lines) None
          /\ length lines = length survivors).
Proof.
  split; [lia|].
  apply (main_prints_all_or_nothing (L := example_library)). lia.
Defined.

Lemma filter_time_window_over_midnight_witness :
  utc_microsecond (mkDaytime 4 0 0 0 (Some 7200)) 7200
  < utc_microsecond (mkDaytime 22 0 0 0 (Some 7200)) 7200
  /\ (clock_microsecond (mkDatetime 2023 6 8 0 30)
      <= clock_microsecond (mkDatetime 2023 6 8 1 30) ->
      filter_time (L := example_library) night_transit night_config
      = Ok false)
  /\ (filter_time (L := example_library) night_transit night_config
      = Ok true ->
      clock_microsecond (mkDatetime 2023 6 8 1 30)
      < clock_microsecond (mkDatetime 2023 6 8 0 30)).
Proof.
  split; [vm_compute; reflexivity|].
  apply (filter_time_window_over_midnight (L := example_library)
           night_transit night_config
           (mkDatetime 2023 6 8 0 30) (mkDatetime 2023 6 8 1 30)
           (mkDaytime 22 0 0 0 (Some 7200)) (mkDaytime 4 0 0 0 (Some 7200))
           7200 7200);
    vm_compute; reflexivity.
Defined.

Lemma filter_time_zone_less_maximum_witness :
  fromisoformat (Library := example_library) "23:00"
  = Ok (mkDaytime 23 0 0 0 None)
  /\ filter_time (L := example_library) hat_p_1 half_naive_config
     = Raise TypeError.
Proof.
  split; [vm_compute; reflexivity|].
  apply (filter_time_zone_less_maximum (L := example_library)
           hat_p_1 half_naive_config
           (mkDatetime 2023 6 8 19 0) (mkDatetime 2023 6 8 21 0)
           (mkDaytime 18 0 0 0 (Some 0)) (mkDaytime 23 0 0 0 None));
    vm_compute; reflexivity.
Defined.

Lemma survivors_pass_the_four_filters_witness :
  select (admissible (L := example_library) example_config)
         example_store example_transits = Ok [0; 1; 3; 5]%nat
  /\ forall l,
      l ∈ [0; 1; 3; 5]%nat
      <-> l ∈ example_transits
          /\ exists transit,
              example_store !! l = Some transit
              /\ filter_depth transit example_config = Ok true
              /\ filter_meridian_flip transit = Ok true
              /\ filter_time (L := example_library) transit example_config
                 = Ok true
              /\ filter_elevation transit example_config = Ok true.
Proof.
  assert (H : select (admissible (L := example_library) example_config)
                     example_store example_transits = Ok [0; 1; 3; 5]%nat)
    by (vm_compute; reflexivity).
  split; [exact H|].
  exact (survivors_pass_the_four_filters (L := example_library)
           example_config example_store example_transits [0; 1; 3; 5]%nat H).
Defined.

Lemma main_raises_on_unread_begin_witness :
  read_rows (L := example_library) 2023 unread_rows ∅ []
  = Ok (Read unread_store ([0] ++ 1 :: [2])%nat%list)
  /\ unread_store !! 1%nat = Some unread_begin_transit
  /\ elevation (begin unread_begin_transit) = None
  /\ main (L := example_library) example_config 2023 unread_rows
     = mkOutcome [] (Some KeyError).
Proof.
  split; [vm_compute; reflexivity|]. split; [vm_compute; reflexivity|].
  split; [reflexivity|].
  apply (main_raises_on_unread_begin (L := example_library)
           example_config 2023 unread_rows unread_store
           [0%nat] [2%nat] [0%nat] 1%nat unread_begin_transit);
    vm_compute; reflexivity.
Defined.

Lemma main_fails_with_the_database_witness :
  select (admissible (L := example_library) example_config)
         unknown_store [0; 1; 2]%nat = Ok ([0] ++ 1 :: [2])%nat%list
  /\ get_database_sample_number (Library := example_library)
       (object unknown_transit) = Raise URLError
  /\ main (L := example_library) example_config 2023 unknown_rows
     = mkOutcome [] (Some URLError).
Proof.
  split; [vm_compute; reflexivity|]. split; [reflexivity|].
  apply (main_fails_with_the_database (L := example_library)
           example_config 2023 unknown_rows unknown_store
           [0; 1; 2]%nat [0%nat] [2%nat] 1%nat unknown_transit URLError);
    try (vm_compute; reflexivity).
  intros g Hg.
  repeat (apply elem_of_cons in Hg; destruct Hg as [->|Hg];
          [eexists _, _; split; vm_compute; reflexivity|]).
  inversion Hg.
Defined.

Lemma rank_asks_for_survivors_only_witness :
  select (admissible (L := example_library) example_config)
         example_store example_transits = Ok [0; 1; 3; 5]%nat
  /\ rank (L := with_database example_library other_sample_number)
          example_config example_store example_transits
     = rank (L := example_library) example_config example_store
            example_transits.
Proof.
  assert (H : select (admissible (L := example_library) example_config)
                     example_store example_transits = Ok [0; 1; 3; 5]%nat)
    by (vm_compute; reflexivity).
  split; [exact H|].
  apply (rank_asks_for_survivors_only example_library other_sample_number
           example_config example_store example_transits
           [0; 1; 3; 5]%nat H).
  intros l transit Hl.
  repeat (apply elem_of_cons in Hl; destruct Hl as [->|Hl];
          [vm_compute; intros [= <-]; reflexivity|]).
  inversion Hl.
Defined.

Lemma database_sample_number_splits_witness :
  is_character " " /\ is_character "b"
  /\ database_sample_number example_request "http://x/etd.php"
       ("KELT-4A" ++ " " ++ "b")
     = example_request
         (sample_number_url "http://x/etd.php" "KELT-4A" "b").
Proof.
  split; [split; reflexivity|]. split; [split; reflexivity|].
  apply database_sample_number_splits; split; reflexivity.
Defined.

Lemma database_sample_number_short_names_witness :
  is_character degree /\ is_character "b"
  /\ database_sample_number example_request "http://x/etd.php" ""
     = Raise IndexError
  /\ database_sample_number example_request "http://x/etd.php" "b"
     = example_request (sample_number_url "http://x/etd.php" "" "b")
  /\ database_sample_number example_request "http://x/etd.php"
       (degree ++ "b")
     = example_request (sample_number_url "http://x/etd.php" "" "b").
Proof.
  split; [split; reflexivity|]. split; [split; reflexivity|].
  apply database_sample_number_short_names; split; reflexivity.
Defined.

Lemma sample_number_url_injective_witness :
  sample_number_url "http://x/etd.php" "KELT-4A" "b"
  = sample_number_url "http://x/etd.php" "KELT-4A" "b"
  /\ "KELT-4A" = "KELT-4A" /\ "b" = "b".
Proof.
  split; [reflexivity|].
  apply (sample_number_url_injective "http://x/etd.php"). reflexivity.
Defined.

Lemma print_transits_csv_stops_without_count_witness :
  example_ranked_store !! 4%nat
  = Some (mkTransit "KELT-4A b" float_0_5 None
            (mkMoment (Some (mkDatetime 2023 6 9 19 0)) (Some 30))
            (mkMoment (Some (mkDatetime 2023 6 9 20 0)) (Some 60))
            (mkMoment (Some (mkDatetime 2023 6 9 21 0)) (Some 40)))
  /\ exists lines,
      print_transits_csv (L := example_library) example_ranked_store
                         ([1; 3] ++ 4 :: [0])%nat%list
      = mkOutcome (labelled_header :: lines) (Some KeyError)
      /\ print_transits_csv (L := example_library) example_ranked_store
                            [1; 3]%nat
         = mkOutcome (labelled_header :: lines) None
      /\ length lines = length [1; 3]%nat.
Proof.
  split; [vm_compute; reflexivity|].
  apply (print_transits_csv_stops_without_count (L := example_library)
           example_ranked_store [1; 3]%nat [0%nat] 4%nat
           (mkTransit "KELT-4A b" float_0_5 None
              (mkMoment (Some (mkDatetime 2023 6 9 19 0)) (Some 30))
              (mkMoment (Some (mkDatetime 2023 6 9 20 0)) (Some 60))
              (mkMoment (Some (mkDatetime 2023 6 9 21 0)) (Some 40))));
    [|vm_compute; reflexivity|reflexivity].
  intros g Hg.
  repeat (apply elem_of_cons in Hg; destruct Hg as [->|Hg];
          [eexists; split; vm_compute; reflexivity|]).
  inversion Hg.
Defined.

Lemma print_transits_line_count_witness :
  (forall l, l ∈ [0; 2; 1]%nat ->
             exists transit, example_ranked_store !! l = Some transit
                             /\ has_moments transit = true)
  /\ raised (print_transits (L := example_library) example_ranked_store
                            [0; 2; 1]%nat) = None
  /\ length (stdout (print_transits (L := example_library)
                       example_ranked_store [0; 2; 1]%nat))
     = (6 * length [0; 2; 1]%nat
        + length (List.filter (counted example_ranked_store)
                              [0; 2; 1]%nat))%nat.
Proof.
  assert (Hall : forall l, l ∈ [0; 2; 1]%nat ->
                           exists transit,
                             example_ranked_store !! l = Some transit
                             /\ has_moments transit = true).
  { intros l Hl.
    repeat (apply elem_of_cons in Hl; destruct Hl as [->|Hl];
            [eexists; split; vm_compute; reflexivity|]).
    inversion Hl. }
  split; [exact Hall|].
  exact (print_transits_line_count (L := example_library)
           example_ranked_store [0; 2; 1]%nat Hall).
Defined.

Lemma print_transits_stops_at_empty_begin_witness :
  unread_store !! 1%nat = Some unread_begin_transit
  /\ time (begin unread_begin_transit) = None
  /\ print_transits (L := example_library) unread_store
                    ([0] ++ 1 :: [2])%nat%list
     = mkOutcome
         (stdout (print_transits (L := example_library) unread_store [0%nat])
          ++ ["Qatar-1 b"; "0.5"])%list
         (Some KeyError).
Proof.
  split; [vm_compute; reflexivity|]. split; [reflexivity|].
  apply (print_transits_stops_at_empty_begin (L := example_library)
           unread_store [0%nat] [2%nat] 1%nat unread_begin_transit);
    [|vm_compute; reflexivity|reflexivity].
  intros g Hg.
  repeat (apply elem_of_cons in Hg; destruct Hg as [->|Hg];
          [eexists; split; vm_compute; reflexivity|]).
  inversion Hg.
Defined.
